(** * DSWx-SAR: refinement of a water mask with bimodality tests

    A shallow embedding of [src/dswx_sar/refine_with_bimodality.py]:
    the decision rule of [BimodalityMetrics], the two per-component
    classifiers ([process_dark_land_component],
    [process_bright_water_component]) and the block-wise drivers that
    dispatch components to a worker pool and scatter the verdicts back
    into label-indexed arrays.

    Conventions of the embedding.
    - A NumPy [float64] is a [float64]: either [NaN] or an exact rational.
      Comparisons with [NaN] are false, arithmetic propagates [NaN].
      Infinite values are not represented: the rasters hold finite samples
      or NaN, and [-inf] only arises as [log10 0] inside the numerical
      kernels, which are kept abstract.
    - The one place where the source converts a floating-point result to an
      integer (the dilation margin) is computed with binary64 numbers.
    - Python exceptions are values of [result].
    - The numerical kernels of NumPy, SciPy and scikit-image (histograms,
      Otsu thresholds, curve fitting, moments) are the fields of the class
      [Numerics]; every statement holds for all of them.
    - Block iteration, raster input and output ([dswx_sar_util]) and the
      labelling of connected components (OpenCV) are the fields of the
      class [BlockRasterStore]; the drivers are stated over every store. *)

From Stdlib Require Import ZArith QArith Qround Floats List Permutation Lia Lqa String.
From stdpp Require Import base list.
Import ListNotations.

Local Open Scope Z_scope.

(** ** Exceptions *)

Inductive exn : Type :=
| IndexError
| UnboundLocalError.

Inductive result (A : Type) : Type :=
| Ok (a : A)
| Raise (e : exn).
Arguments Ok {A} a.
Arguments Raise {A} e.

#[global] Instance result_ret : MRet result := fun A a => Ok a.
#[global] Instance result_bind : MBind result := fun A B f m =>
  match m with
  | Ok a => f a
  | Raise e => Raise e
  end.
#[global] Instance result_fmap : FMap result := fun A B f m =>
  match m with
  | Ok a => Ok (f a)
  | Raise e => Raise e
  end.

(** [l[i]] for a non-negative index: [IndexError] out of range. *)
Definition getitem {A} (l : list A) (i : nat) : result A :=
  match l !! i with
  | Some a => Ok a
  | None => Raise IndexError
  end.

(** [l[i] = v] for a non-negative index: [IndexError] out of range. *)
Definition setitem {A} (l : list A) (i : nat) (v : A) : result (list A) :=
  if decide (i < length l)%nat then Ok (<[i := v]> l) else Raise IndexError.

(** ** Floating-point values *)

Inductive float64 : Type :=
| NaN
| Num (q : Q).

Definition isnan (x : float64) : bool :=
  match x with
  | NaN => true
  | Num _ => false
  end.

Definition Qltb (a b : Q) : bool := negb (Qle_bool b a).

(** [x > y], [x < y], [x >= y], [x == y]: false as soon as one side is NaN. *)
Definition fgt (x y : float64) : bool :=
  match x, y with
  | Num a, Num b => Qltb b a
  | _, _ => false
  end.
Definition flt (x y : float64) : bool := fgt y x.
Definition fge (x y : float64) : bool :=
  match x, y with
  | Num a, Num b => Qle_bool b a
  | _, _ => false
  end.
Definition feq (x y : float64) : bool :=
  match x, y with
  | Num a, Num b => Qeq_bool a b
  | _, _ => false
  end.

Definition fadd (x y : float64) : float64 :=
  match x, y with
  | Num a, Num b => Num (a + b)
  | _, _ => NaN
  end.
Definition fmul (x y : float64) : float64 :=
  match x, y with
  | Num a, Num b => Num (a * b)
  | _, _ => NaN
  end.

Definition of_bool (b : bool) : float64 := if b then Num 1 else Num 0.
Definition fzero : float64 := Num 0.

(** The values of an array that are not NaN, in order. *)
Definition valid (l : list float64) : list Q :=
  omap (fun x => match x with NaN => None | Num q => Some q end) l.

Fixpoint insert_sorted (a : Q) (l : list Q) : list Q :=
  match l with
  | [] => [a]
  | b :: l' => if Qle_bool a b then a :: l else b :: insert_sorted a l'
  end.
Definition sort (l : list Q) : list Q := foldr insert_sorted [] l.

Definition Qsum (l : list Q) : Q := foldr Qplus 0%Q l.

(** [np.nanmean]: the mean of the values that are not NaN; NaN when there
    is none (NumPy warns and returns NaN for an empty or all-NaN slice). *)
Definition nanmean (l : list float64) : float64 :=
  match valid l with
  | [] => NaN
  | v => Num (Qsum v / inject_Z (Z.of_nat (length v)))
  end.

(** [np.nanmean] of a boolean array (True counts 1, False 0). *)
Definition nanmean_bool (l : list bool) : float64 :=
  nanmean (of_bool <$> l).

(** [np.nanmedian]: the median of the values that are not NaN. *)
Definition nanmedian (l : list float64) : float64 :=
  let s := sort (valid l) in
  let n := length s in
  match n with
  | O => NaN
  | _ =>
      if Nat.odd n then Num (nth (n / 2) s 0%Q)
      else Num ((nth (n / 2 - 1) s 0 + nth (n / 2) s 0) / 2)%Q
  end.

(** [np.nanpercentile(l, q)] with NumPy's default linear interpolation:
    the virtual index [q/100 * (n-1)] into the sorted valid values. *)
Definition nanpercentile (l : list float64) (q : Q) : float64 :=
  let s := sort (valid l) in
  let n := length s in
  match n with
  | O => NaN
  | _ =>
      let vi := (q / 100 * inject_Z (Z.of_nat (n - 1)))%Q in
      let prev := Z.to_nat (Qfloor vi) in
      let next := Nat.min (prev + 1) (n - 1) in
      let gamma := (vi - inject_Z (Qfloor vi))%Q in
      let a := nth prev s 0%Q in
      let b := nth next s 0%Q in
      Num (a + (b - a) * gamma)%Q
  end.

(** [int(x)] of a binary64 number: truncation toward zero. *)
Definition float_trunc (f : PrimFloat.float) : Z :=
  match Prim2SF f with
  | S754_finite s m e =>
      let v := if 0 <=? e then Z.pos m * 2 ^ e else Z.pos m / 2 ^ (- e) in
      if s then - v else v
  | _ => 0
  end.

(** [int((np.sqrt(2) - 1.2) * np.sqrt(sizes))], on binary64 numbers as in
    the source. *)
Definition margin_of (sizes : Z) : Z :=
  float_trunc ((PrimFloat.sqrt 2 - 0x1.3333333333333p+0)
               * PrimFloat.sqrt (PrimFloat.of_uint63 (Uint63.of_Z sizes)))%float.

(** ** Arrays *)

Abbreviation array2 A := (list (list A)).

Definition map2d {A B} (f : A -> B) (a : array2 A) : array2 B :=
  (fun row : list A => f <$> row) <$> a.
Definition zip2d {A B C} (f : A -> B -> C) (a : array2 A) (b : array2 B) : array2 C :=
  zip_with (zip_with f) a b.

(** Boolean indexing [a[mask]]: the selected elements in row-major order. *)
Fixpoint select_row {A} (m : list bool) (a : list A) : list A :=
  match m, a with
  | b :: m', x :: a' => if b then x :: select_row m' a' else select_row m' a'
  | _, _ => []
  end.
Definition select {A} (m : array2 bool) (a : array2 A) : list A :=
  concat (zip_with select_row m a).

(** A windowed read of a raster band: [height] rows from [row_off],
    [width] columns from [col_off]. *)
Definition read_window {A} (r : array2 A) (col_off row_off width height : Z) : array2 A :=
  (fun row => take (Z.to_nat width) (drop (Z.to_nat col_off) row))
    <$> take (Z.to_nat height) (drop (Z.to_nat row_off) r).

(** The pixel [(r, c)] of a boolean image, false outside of it. *)
Definition at2 (img : array2 bool) (r c : Z) : bool :=
  if (r <? 0) || (c <? 0) then false
  else
    match img !! Z.to_nat r with
    | Some row => default false (row !! Z.to_nat c)
    | None => false
    end.

(** One step of [scipy.ndimage.binary_dilation] with the default
    cross-shaped structuring element and border value 0.  Where [mask] is
    false the pixel keeps its value. *)
Definition dilate_once (img mask : array2 bool) : array2 bool :=
  imap (fun r row =>
    imap (fun c v =>
      let r := Z.of_nat r in
      let c := Z.of_nat c in
      if at2 mask r c
      then v || at2 img (r - 1) c || at2 img (r + 1) c
             || at2 img r (c - 1) || at2 img r (c + 1)
      else v) row) img.

Fixpoint dilate_iter (n : nat) (img mask : array2 bool) : array2 bool :=
  match n with
  | O => img
  | S k => dilate_iter k (dilate_once img mask) mask
  end.

(** [ndimage.binary_dilation(img, iterations=iterations, mask=mask)] for
    [iterations >= 1], the only case the callers reach. *)
Definition binary_dilation (img : array2 bool) (iterations : Z) (mask : array2 bool) : array2 bool :=
  dilate_iter (Z.to_nat iterations) img mask.

(** [np.sum(bands, axis=0)]: the sum over the first axis. *)
Definition sum_axis0 (bands : list (array2 float64)) : array2 float64 :=
  match bands with
  | [] => []
  | b :: bs => foldl (zip2d fadd) b bs
  end.

(** [np.sum(band, axis=0)] of one 2-D band: the sums of its columns. *)
Definition column_sums (band : array2 float64) : list float64 :=
  match band with
  | [] => []
  | r :: rs => foldl (zip_with fadd) r rs
  end.

(** [np.where(cond)[0]] of a 1-D condition: the indices where it holds. *)
Fixpoint np_where_from (k : nat) (cond : list bool) : list nat :=
  match cond with
  | [] => []
  | b :: cond' => if b then k :: np_where_from (S k) cond' else np_where_from (S k) cond'
  end.
Definition np_where (cond : list bool) : list nat := np_where_from 0 cond.

(** ** BimodalityMetrics *)

(** A fitted Gaussian mode: mean, standard deviation, amplitude. *)
Definition mode : Type := float64 * float64 * float64.

Record BimodalityMetrics : Type := {
  intensity_array : list float64;
  int_db : list float64;
  threshold_global_otsu : float64;
  optimization : bool;
  (** [first_mode] and [second_mode], set only when the fit succeeded *)
  modes : option (mode * mode)
}.

(** The numerical kernels the module relies on.  [curve_fit] stands for the
    histogram, the seeding and [scipy.optimize.curve_fit] of
    [BimodalityMetrics.__init__] (lines 57-65 and 88-121): the six fitted
    parameters, or [None] when the [try] block raises.  The [compute_*]
    fields are the methods of the same names and [estimate_bimodality] is
    the histogram-sweep estimator.  [threshold_otsu] and
    [threshold_multiotsu] are the values the calls of scikit-image return:
    a call that raises (an empty sample, a sample with fewer distinct
    values than classes) is outside of the model, and what is proved of
    the constructor holds for the samples on which both calls return. *)
Class Numerics : Type := {
  log10 : float64 -> float64;
  threshold_otsu : list float64 -> float64;
  threshold_multiotsu : list float64 -> list float64;
  curve_fit : list float64 -> float64 -> option (mode * mode);
  compute_ashman : BimodalityMetrics -> float64;
  compute_bhc : BimodalityMetrics -> float64;
  compute_surface_ratio : BimodalityMetrics -> float64;
  compute_bimodality : BimodalityMetrics -> float64;
  compute_bc_coefficient : BimodalityMetrics -> float64;
  estimate_bimodality : list float64 -> float64 * float64
}.

(** The keyword flags of [compute_metric]. *)
Record metric_flags : Type := {
  ashman_flag : bool;
  bhc_flag : bool;
  bm_flag : bool;
  surface_ratio_flag : bool;
  bc_flag : bool
}.

Definition default_flags : metric_flags :=
  {| ashman_flag := true; bhc_flag := true; bm_flag := true;
     surface_ratio_flag := true; bc_flag := true |}.

(** [gauss_dist_thres_bound=[-18, 0]] *)
Definition default_bound : list float64 := [Num (-18); Num 0].

(** Python's [flag and rhs]: [rhs] is evaluated only when [flag] holds. *)
Definition py_and (flag : bool) (rhs : result bool) : result bool :=
  if flag then rhs else Ok false.

Section Classifiers.
Context {N : Numerics}.

(** [10 * np.log10(array)] *)
Definition to_db (array : list float64) : list float64 :=
  (fun x => fmul (Num 10) (log10 x)) <$> array.

(** Lines 72-86 of [__init__]: the threshold that seeds the fit. *)
Definition init_threshold (int_db_valid : list float64)
    (gauss_dist_thres_bound : list float64) : result float64 :=
  let otsu := threshold_otsu int_db_valid in
  b0 ← getitem gauss_dist_thres_bound 0;
  if flt otsu b0 then
    let multithreshold_global_otsu := threshold_multiotsu int_db_valid in
    if existsb (fun m => fge m b0) multithreshold_global_otsu then
      b1 ← getitem gauss_dist_thres_bound 1;
      let threshold_global_otsu_ind :=
        np_where ((fun m => fgt m b0 && flt m b1) <$> multithreshold_global_otsu) in
      k ← getitem threshold_global_otsu_ind 0;
      getitem multithreshold_global_otsu k
    else Ok otsu
  else Ok otsu.

(** [BimodalityMetrics.__init__] *)
Definition BimodalityMetrics_init (intensity_array : list float64)
    (gauss_dist_thres_bound : list float64) : result BimodalityMetrics :=
  let int_db := to_db intensity_array in
  let int_db_valid := List.filter (fun x => negb (isnan x)) int_db in
  thr ← init_threshold int_db_valid gauss_dist_thres_bound;
  match curve_fit int_db thr with
  | Some (p1, p2) =>
      let ordered := if fgt p1.1.1 p2.1.1 then (p2, p1) else (p1, p2) in
      Ok {| intensity_array := intensity_array; int_db := int_db;
            threshold_global_otsu := thr; optimization := true;
            modes := Some ordered |}
  | None =>
      Ok {| intensity_array := intensity_array; int_db := int_db;
            threshold_global_otsu := thr; optimization := false;
            modes := None |}
  end.

(** [get_metric]: (ashman, bhc, surface_ratio, bm_coeff, bc_coeff) *)
Definition get_metric (self : BimodalityMetrics)
    : float64 * float64 * float64 * float64 * float64 :=
  if optimization self then
    (compute_ashman self, compute_bhc self, compute_surface_ratio self,
     compute_bimodality self, compute_bc_coefficient self)
  else
    (fzero, fzero, fzero, (estimate_bimodality (int_db self)).1,
     compute_bc_coefficient self).

(** [compute_metric].  The metrics returned by [get_metric] are numbers, so
    the [is None] alternatives of the source never apply. *)
Definition compute_metric (self : BimodalityMetrics) (flags : metric_flags)
    (thresholds : list float64) : result bool :=
  if optimization self && (4 <? length (int_db self))%nat then
    let '(ashman, bhc, surface_ratio, bm_coeff, bc_coeff) := get_metric self in
    bm_coeff_bool ← py_and (bm_flag flags)
      (t ← getitem thresholds 3; Ok (fgt bm_coeff t));
    ashman_bool ← py_and (ashman_flag flags)
      (t ← getitem thresholds 0; Ok (fgt ashman t));
    bhc_bool ← py_and (bhc_flag flags)
      (t ← getitem thresholds 1; Ok (fgt bhc t));
    surface_ratio_bool ← py_and (surface_ratio_flag flags)
      (t ← getitem thresholds 2; Ok (fgt surface_ratio t));
    let bc_coeff_bool := bc_flag flags && fgt bc_coeff (Num (5 # 9)) in
    let bimodal_metrics :=
      Z.b2z ashman_bool + Z.b2z bm_coeff_bool + Z.b2z bc_coeff_bool in
    let bool_set :=
      [(2 <=? bimodal_metrics) || fgt ashman (Num 3); surface_ratio_bool] in
    Ok (forallb id bool_set)
  else
    let '(bt_max, ad_max) := estimate_bimodality (int_db self) in
    t ← getitem thresholds 3;
    Ok (fgt bt_max t && fgt ad_max (Num (3 # 2))).

End Classifiers.

(** ** Component classifiers *)

(** The rasters a worker opens: the land-cover map, the intensity bands
    (one 2-D array per polarization), the reference-land raster made of 0
    and 1, and the component labels written by the driver. *)
Record raster_files : Type := {
  landcover_tif : array2 Z;
  intensity_tif : list (array2 float64);
  ref_land_tif : array2 float64;
  label_tif : array2 Z
}.

(** A bounding box [[x_start, x_end, y_start, y_end]]. *)
Definition bounds_t : Type := Z * Z * Z * Z.

(** The argument tuple of [process_dark_land_component], the file paths
    apart: they are replaced by the contents of the files. *)
Record dark_land_args : Type := {
  dl_i : nat;
  dl_sizes : Z;
  dl_bounds : bounds_t;
  dl_pol_ind : nat;
  dl_thresholds : list float64;
  dl_minimum_pixel : Z;
  dl_debug_mode : bool
}.

(** (i, bimodality_array_i, ref_land_portion, metric_output_i) *)
Definition dark_land_result : Type := nat * bool * float64 * list float64.

(** The argument tuple of [process_bright_water_component]. *)
Record bright_water_args : Type := {
  bw_ind : nat;
  bw_sizes : Z;
  bw_bounds : bounds_t;
  bw_pol_ind : nat;
  bw_threshold : list float64
}.

(** (bt_value, ad_value, ind_bright_water) *)
Definition bright_water_result : Type := float64 * float64 * nat.

Definition zeros (n : nat) : list float64 := replicate n fzero.

Definition metric_list (m : float64 * float64 * float64 * float64 * float64)
    : list float64 :=
  let '(a, b, c, d, e) := m in [a; b; c; d; e].

(** The label of component [i] *)
Definition label_of (i : nat) : Z := Z.of_nat i + 1.

(** [src.read(window=Window(x_start, y_start, width, height))] *)
Definition window_of {A} (bounds : bounds_t) (r : array2 A) : array2 A :=
  let '(x_start, x_end, y_start, y_end) := bounds in
  read_window r x_start y_start (x_end - x_start) (y_end - y_start).

(** The local variables of [process_dark_land_component], as functions of
    its arguments and of the files it reads. *)
Definition dl_bands (args : dark_land_args) (files : raster_files) : list (array2 float64) :=
  window_of (dl_bounds args) <$> intensity_tif files.

Definition dl_water_label (args : dark_land_args) (files : raster_files) : array2 Z :=
  window_of (dl_bounds args) (label_tif files).

(** [out_boundary = (np.isnan(np.sum(bands, axis=0)) == 0) & (water_label == 0)] *)
Definition dl_out_boundary (args : dark_land_args) (files : raster_files) : array2 bool :=
  zip2d andb (map2d (fun s => negb (isnan s)) (sum_axis0 (dl_bands args files)))
             (map2d (fun l => l =? 0) (dl_water_label args files)).

(** [watermask = water_label == i + 1] *)
Definition dl_watermask (args : dark_land_args) (files : raster_files) : array2 bool :=
  map2d (fun l => l =? label_of (dl_i args)) (dl_water_label args files).

(** [ref_land_masked = ref_land[mask]] *)
Definition dl_ref_land_masked (args : dark_land_args) (files : raster_files) : list float64 :=
  select (dl_watermask args files) (window_of (dl_bounds args) (ref_land_tif files)).

(** [ref_land_portion = np.nanmean(ref_land_masked)] *)
Definition dl_ref_land_portion (args : dark_land_args) (files : raster_files) : float64 :=
  nanmean (dl_ref_land_masked args files).

(** [margin], which is at least 1 *)
Definition dl_margin (sizes : Z) : Z :=
  let margin := margin_of sizes in
  if margin =? 0 then 1 else margin.

(** [mask_buffer]: the component dilated [margin] times over the valid
    pixels that carry no label *)
Definition dl_mask_buffer (args : dark_land_args) (files : raster_files) : array2 bool :=
  binary_dilation (dl_watermask args files) (dl_margin (dl_sizes args))
                  (dl_out_boundary args files).

(** [(watermask == 0) & (mask_buffer == 1)]: the buffer without the component *)
Definition dl_adjacent_mask (args : dark_land_args) (files : raster_files) : array2 bool :=
  zip2d (fun w b => negb w && b) (dl_watermask args files) (dl_mask_buffer args files).

(** [intensity_center = np.nanmedian(single_band[watermask == 1])] *)
Definition dl_intensity_center (args : dark_land_args) (files : raster_files)
    (single_band : array2 float64) : float64 :=
  nanmedian (select (dl_watermask args files) single_band).

(** [intensity_adjacent_low = np.nanpercentile(intensity_adjacent_area, 15)] *)
Definition dl_intensity_adjacent_low (args : dark_land_args) (files : raster_files)
    (single_band : array2 float64) : float64 :=
  nanpercentile (select (dl_adjacent_mask args files) single_band) 15.

(** [~(np.isnan(x) | (x == 0))] *)
Definition nonzero_number (x : float64) : bool := negb (isnan x || feq x fzero).

(** [intensity_array]: the intensities over [mask_buffer], NaN and zero
    dropped *)
Definition dl_intensity_array (args : dark_land_args) (files : raster_files)
    (single_band : array2 float64) : list float64 :=
  List.filter nonzero_number (select (dl_mask_buffer args files) single_band).

(** What the specification samples instead: the intensities over the ring,
    that is the buffer without the component, NaN and zero dropped. *)
Definition spec_ring_intensity_array (args : dark_land_args) (files : raster_files)
    (single_band : array2 float64) : list float64 :=
  List.filter nonzero_number (select (dl_adjacent_mask args files) single_band).

(** [mask_water = output_water == ind_bright_water + 1] *)
Definition bw_mask_water (args : bright_water_args) (files : raster_files) : array2 bool :=
  map2d (fun l => l =? label_of (bw_ind args)) (window_of (bw_bounds args) (label_tif files)).

(** [adjacent_areas = (np.isnan(np.sum(bands, axis=0)) == 0) & (output_water == 0)]
    where [bands] is one 2-D band: the sum runs down the columns and the
    row of flags is broadcast over the rows of [output_water]. *)
Definition bw_adjacent_areas (args : bright_water_args) (files : raster_files)
    (bands : array2 float64) : array2 bool :=
  let bands_ok := (fun s => negb (isnan s)) <$> column_sums bands in
  (fun row : list Z => zip_with (fun ok l => ok && (l =? 0)) bands_ok row)
    <$> window_of (bw_bounds args) (label_tif files).

(** [landcover_water = (ref_land == 0) | (landcover == 0)] *)
Definition bw_landcover_water (args : bright_water_args) (files : raster_files) : array2 bool :=
  zip2d (fun r l => feq r fzero || (l =? 0))
        (window_of (bw_bounds args) (ref_land_tif files))
        (window_of (bw_bounds args) (landcover_tif files)).

(** [landcover_portion]: the share of [landcover_water] over the component,
    0 for a component without pixels *)
Definition bw_landcover_portion (args : bright_water_args) (files : raster_files) : float64 :=
  let landcover_water_target :=
    select (bw_mask_water args files) (bw_landcover_water args files) in
  if (0 <? length landcover_water_target)%nat
  then nanmean_bool landcover_water_target
  else fzero.

Section Workers.
Context {N : Numerics}.

Definition process_dark_land_component (args : dark_land_args)
    (files : raster_files) : result dark_land_result :=
  let i := dl_i args in
  let sizes := dl_sizes args in
  let bands := dl_bands args files in
  let metric_output_i := zeros 5 in
  let ref_land_portion := dl_ref_land_portion args files in
  if (dl_minimum_pixel args <=? sizes) && negb (isnan ref_land_portion) then
    if fgt ref_land_portion (Num (8 # 10)) then
      single_band ← getitem bands (dl_pol_ind args);
      let intensity_center := dl_intensity_center args files single_band in
      let intensity_adjacent_low := dl_intensity_adjacent_low args files single_band in
      if fgt intensity_center intensity_adjacent_low then
        Ok (i, false, ref_land_portion, metric_output_i)
      else
        let intensity_array := dl_intensity_array args files single_band in
        if (4 <? length intensity_array)%nat then
          metric_obj ← BimodalityMetrics_init intensity_array default_bound;
          bimodality_array_i ←
            compute_metric metric_obj default_flags (dl_thresholds args);
          let metric_output_i :=
            if dl_debug_mode args then metric_list (get_metric metric_obj)
            else metric_output_i in
          Ok (i, bimodality_array_i, ref_land_portion, metric_output_i)
        else
          Ok (i, false, ref_land_portion, metric_output_i)
    else
      Ok (i, true, ref_land_portion, metric_output_i)
  else
    Ok (i, false, ref_land_portion, metric_output_i).

(** The local variables of [process_bright_water_component].  A file of
    several bands is reduced to the band [pol_ind]; [np.squeeze] of a
    window of a single row or column is not modelled. *)
Definition bw_bands (args : bright_water_args) (files : raster_files)
    : result (array2 float64) :=
  match intensity_tif files with
  | [b] => Ok (window_of (bw_bounds args) b)
  | bs => window_of (bw_bounds args) <$> getitem bs (bw_pol_ind args)
  end.

Definition process_bright_water_component (args : bright_water_args)
    (files : raster_files) : result bright_water_result :=
  let ind_bright_water := bw_ind args in
  let sizes := bw_sizes args in
  let threshold := bw_threshold args in
  bands ← bw_bands args files;
  let landcover_portion := bw_landcover_portion args files in
  t1 ← getitem threshold 1;
  let ad_value := fadd t1 (Num (1 # 2)) in
  t0 ← getitem threshold 0;
  let bt_value := fadd t0 (Num (1 # 2)) in
  if fgt landcover_portion (Num (99 # 100)) then
    let margin := margin_of sizes in
    let margin := Z.max margin 5 in
    let mask_buffer :=
      binary_dilation (bw_mask_water args files) margin
                      (bw_adjacent_areas args files bands) in
    let intensity_array := select mask_buffer bands in
    let '(bt_value, ad_value) := estimate_bimodality (to_db intensity_array) in
    Ok (bt_value, ad_value, ind_bright_water)
  else
    Ok (bt_value, ad_value, ind_bright_water).

End Workers.

(** Lines 1196-1198 of [fill_gap_water_bimodality_parallel]:
    [(bt_value < threshold[0]) | (ad_value < threshold[1])] *)
Definition bimodality_bright_water (threshold : list float64)
    (res : bright_water_result) : result bool :=
  let '(bt_value, ad_value, _) := res in
  t0 ← getitem threshold 0;
  t1 ← getitem threshold 1;
  Ok (flt bt_value t0 || flt ad_value t1).

(** ** Block-wise drivers *)

(** The block parameters the drivers read. *)
Record BlockParam : Type := {
  block_length : Z;
  read_start_line : Z;
  read_length : Z
}.

(** A row of the statistics of [cv2.connectedComponentsWithStats]:
    (left, top, width, height, area) *)
Definition stat_row : Type := Z * Z * Z * Z * Z.

(** The output of [cv2.connectedComponentsWithStats]: the label image and
    one row of statistics per label, the background (label 0) first.  The
    number of labels it returns is the number of rows. *)
Record cc_output : Type := {
  cc_labels : array2 Z;
  cc_stats : list stat_row
}.

(** The raster files the drivers read and write in [outputdir]. *)
Inductive path : Type :=
| InputMask
| FalseWaterLabel
| RemoveFalseWaterTemp (block_iter : nat)
| CheckRemoveFalseWater
| MergedRemovedFalseWater
| NoDataArea
| WaterLabelBrightWater
| FillGapWaterTemp (block_iter : nat)
| CheckFillGap
| MergedFillGap.

(** The static inputs named by [input_dict]. *)
Record input_dict : Type := {
  in_ref_land : array2 float64;
  in_landcover : array2 Z;
  in_intensity : list (array2 float64)
}.

(** The collaborators of the drivers that live outside of the module:
    [dswx_sar_util] for block iteration and raster input and output, OpenCV
    for the labelling.  [file_content] is what a worker gets when it opens a
    raster written by the driver. *)
Class BlockRasterStore : Type := {
  store : Type;
  block_param_generator : Z -> Z * Z -> Z * Z -> list BlockParam;
  get_raster_block : store -> path -> BlockParam -> array2 Z;
  write_raster_block : store -> path -> array2 Z -> BlockParam -> store;
  read_geotiff : store -> path -> array2 Z;
  merge_binary_layers : store -> list path -> list Z -> path -> Z -> store;
  file_content : store -> path -> array2 Z;
  connectedComponentsWithStats : array2 Z -> cc_output
}.

Fixpoint foldlM {A B} (f : B -> A -> result B) (b : B) (l : list A) : result B :=
  match l with
  | [] => Ok b
  | a :: l' => b' ← f b a; foldlM f b' l'
  end.

(** [enumerate(l)] *)
Definition enumerate {A} (l : list A) : list (nat * A) := imap pair l.

(** [water_mask.astype(np.uint8)] *)
Definition astype_uint8 (a : array2 Z) : array2 Z := map2d (fun v => v mod 256) a.

(** [np.arange(1, nb + 1) - .1] *)
Definition old_val (nb : nat) : list Q :=
  (fun k => inject_Z (Z.of_nat k) - (1 # 10))%Q <$> seq 1 nb.

(** [np.searchsorted(a, v)] on a sorted [a]: the first index [k] with
    [v <= a[k]], the length of [a] when there is none. *)
Fixpoint searchsorted (a : list Q) (v : Z) : nat :=
  match a with
  | [] => O
  | x :: a' => if Qle_bool (inject_Z v) x then O else S (searchsorted a' v)
  end.

(** Indexing with an integer array: [values[index]] *)
Definition take_image {A} (values : list A) (index : array2 nat) : result (array2 A) :=
  mapM (mapM (getitem values)) index.

(** [pol in ['VV', 'VH', 'HH', 'HV']] *)
Definition is_copol_or_crosspol (pol : string) : bool :=
  existsb (String.eqb pol) ["VV"; "VH"; "HH"; "HV"]%string.

(** The arrays indexed by component that the loop over the results fills. *)
Record dark_land_arrays : Type := {
  bimodality_output : list Z;
  check_output : list Z;
  ref_land_portion_output : list float64;
  metric_output : list (list float64)
}.

(** The parameters of [remove_false_water_bimodality_parallel]. *)
Record remove_false_water_config : Type := {
  rf_pol_list : list string;
  rf_thresholds : list float64;
  rf_rows : Z;
  rf_cols : Z;
  rf_input_dict : input_dict;
  rf_minimum_pixel : Z;
  rf_debug_mode : bool;
  rf_lines_per_block : Z
}.

(** Lines 885-908: the components sent to the pool, in the order of the
    keys of [component_data]. *)
Definition dark_land_component (bp : BlockParam) (rows cols minimum_pixel : Z)
    (ind : nat) (st : stat_row) : option (nat * Z * bounds_t) :=
  let '(bbox_x, bbox_y, bbox_w, bbox_h, size) := st in
  if negb (bbox_y =? 0) && negb (bbox_y + bbox_h =? block_length bp)
     && (minimum_pixel <=? size)
  then
    let margin := margin_of size in
    let margin := Z.max margin 1 in
    let sub_x_start := bbox_x - margin in
    let sub_x_end := bbox_x + bbox_w + margin in
    let sub_y_start := bbox_y - margin + read_start_line bp in
    let sub_y_end := bbox_y + bbox_h + margin + read_start_line bp in
    let sub_x_start := Z.max sub_x_start 0 in
    let sub_y_start := Z.max sub_y_start 0 in
    let sub_x_end := Z.min sub_x_end cols in
    let sub_y_end := Z.min sub_y_end rows in
    Some (ind, size, (sub_x_start, sub_x_end, sub_y_start, sub_y_end))
  else None.

Definition dark_land_component_data (bp : BlockParam) (rows cols minimum_pixel : Z)
    (stats_water : list stat_row) : list (nat * Z * bounds_t) :=
  omap id (imap (dark_land_component bp rows cols minimum_pixel) (tail stats_water)).

Definition dark_land_args_list (cfg : remove_false_water_config) (pol_ind : nat)
    (component_data : list (nat * Z * bounds_t)) : list dark_land_args :=
  (fun '(ind, size, bounds) =>
     {| dl_i := ind; dl_sizes := size; dl_bounds := bounds;
        dl_pol_ind := pol_ind; dl_thresholds := rf_thresholds cfg;
        dl_minimum_pixel := rf_minimum_pixel cfg;
        dl_debug_mode := rf_debug_mode cfg |}) <$> component_data.

(** Lines 939-944: one result assigned into the arrays. *)
Definition assign_dark_land (debug_mode : bool) (a : dark_land_arrays)
    (res : dark_land_result) : result dark_land_arrays :=
  let '(bimodal_ind, bimodality_array_i, ref_land_portion_output_i, metric_output_i) := res in
  bo ← setitem (bimodality_output a) bimodal_ind (Z.b2z bimodality_array_i);
  co ← setitem (check_output a) bimodal_ind 0;
  if debug_mode then
    rp ← setitem (ref_land_portion_output a) bimodal_ind ref_land_portion_output_i;
    mo ← setitem (metric_output a) bimodal_ind metric_output_i;
    Ok {| bimodality_output := bo; check_output := co;
          ref_land_portion_output := rp; metric_output := mo |}
  else
    Ok {| bimodality_output := bo; check_output := co;
          ref_land_portion_output := ref_land_portion_output a;
          metric_output := metric_output a |}.

(** Lines 914-918: the arrays before the results are assigned. *)
Definition dark_land_arrays_init (nb_components_water : nat) : dark_land_arrays :=
  {| bimodality_output := replicate nb_components_water 0;
     check_output := replicate nb_components_water 1;
     ref_land_portion_output := zeros nb_components_water;
     metric_output := replicate nb_components_water (zeros 5) |}.

(** Lines 938-953: the results assigned into the arrays and the arrays
    scattered to the pixels through the labels:
    (bimodality_image, check_image). *)
Definition dark_land_scatter (debug_mode : bool) (nb_components_water : nat)
    (output_water : array2 Z) (results : list dark_land_result)
    : result (array2 Z * array2 Z) :=
  a ← foldlM (assign_dark_land debug_mode)
        (dark_land_arrays_init nb_components_water) results;
  let index_array_to_image :=
    map2d (searchsorted (old_val nb_components_water)) output_water in
  let bimodality_output := 0 :: bimodality_output a in
  let check_output := 0 :: check_output a in
  bimodality_image ← take_image bimodality_output index_array_to_image;
  check_image ← take_image check_output index_array_to_image;
  Ok (bimodality_image, check_image).

(** [np.nansum(images, axis=0)] of integer images *)
Definition sum_images (images : list (array2 Z)) : array2 Z :=
  match images with
  | [] => []
  | im :: ims => foldl (zip2d Z.add) im ims
  end.

(** [image[output_water == 0] = False] *)
Definition mask_background (output_water image : array2 Z) : array2 Z :=
  zip2d (fun l v => if l =? 0 then 0 else v) output_water image.

(** [np.squeeze] of the sum of the images of a block (line 990) drops an
    axis of length 1: on a block of one line or of one column the sum is
    no longer a 2-D array, and [bimodality_total[output_water == 0]]
    raises IndexError. *)
Definition squeezed (output_water : array2 Z) (cols : Z) : bool :=
  (length output_water =? 1)%nat || (cols =? 1).

(** What the loop over the polarizations of
    [remove_false_water_bimodality_parallel] leaves behind. *)
Record remove_false_water_pols : Type := {
  bimodality_set : list (array2 Z);
  check_image : option (array2 Z)
}.

(** The parameters of [fill_gap_water_bimodality_parallel]. *)
Record fill_gap_config : Type := {
  fg_pol_list : list string;
  fg_threshold : list float64;
  fg_rows : Z;
  fg_cols : Z;
  fg_input_dict : input_dict;
  fg_lines_per_block : Z
}.

(** Lines 1153-1173: the components sent to the pool. *)
Definition bright_water_component (bp : BlockParam) (rows cols : Z)
    (ind : nat) (st : stat_row) : option (nat * Z * bounds_t) :=
  let '(bbox_x, bbox_y, bbox_w, bbox_h, size) := st in
  if negb (bbox_y =? 0) && negb (bbox_y + bbox_h =? block_length bp)
  then
    let margin := margin_of size in
    let sub_x_start := bbox_x - margin in
    let sub_x_end := bbox_x + bbox_w + margin + 1 in
    let sub_y_start := bbox_y - margin + read_start_line bp in
    let sub_y_end := bbox_y + bbox_h + margin + 1 + read_start_line bp in
    let sub_x_start := Z.max sub_x_start 0 in
    let sub_y_start := Z.max sub_y_start 0 in
    let sub_x_end := Z.min sub_x_end cols in
    let sub_y_end := Z.min sub_y_end rows in
    Some (ind, size, (sub_x_start, sub_x_end, sub_y_start, sub_y_end))
  else None.

Definition bright_water_component_data (bp : BlockParam) (rows cols : Z)
    (stats_water : list stat_row) : list (nat * Z * bounds_t) :=
  omap id (imap (bright_water_component bp rows cols) (tail stats_water)).

Definition bright_water_args_list (cfg : fill_gap_config) (pol_ind : nat)
    (component_data : list (nat * Z * bounds_t)) : list bright_water_args :=
  (fun '(ind, size, bounds) =>
     {| bw_ind := ind; bw_sizes := size; bw_bounds := bounds;
        bw_pol_ind := pol_ind; bw_threshold := fg_threshold cfg |}) <$> component_data.

(** Lines 1194-1201: one result assigned into
    (bimodality_output, check_output). *)
Definition assign_bright_water (threshold : list float64) (a : list Z * list Z)
    (res : bright_water_result) : result (list Z * list Z) :=
  let '(bimodality_output, check_output) := a in
  let result_ind := res.2 in
  verdict ← bimodality_bright_water threshold res;
  bo ← setitem bimodality_output result_ind (Z.b2z verdict);
  co ← setitem check_output result_ind 0;
  Ok (bo, co).

(** Lines 1194-1210: the results assigned into the arrays, the arrays
    extended by the background entry and scattered to the pixels:
    (bimodality_output, check_output, bimodality_image, check_image). *)
Definition bright_water_scatter (threshold : list float64) (nb_components_water : nat)
    (output_water : array2 Z) (a : list Z * list Z)
    (results : list bright_water_result)
    : result (list Z * list Z * array2 Z * array2 Z) :=
  '(bimodality_output, check_output) ← foldlM (assign_bright_water threshold) a results;
  let index_array_to_image :=
    map2d (searchsorted (old_val nb_components_water)) output_water in
  let bimodality_output := 0 :: bimodality_output in
  let check_output := 0 :: check_output in
  bimodality_image ← take_image bimodality_output index_array_to_image;
  check_image ← take_image check_output index_array_to_image;
  Ok (bimodality_output, check_output, bimodality_image, check_image).

(** The variables the loop over the polarizations of
    [fill_gap_water_bimodality_parallel] carries from one iteration to the
    next; [None] is a name that is not bound yet. *)
Record fill_gap_pols : Type := {
  fg_bimodality_output : option (list Z);
  fg_check_output : option (list Z);
  fg_args_list : option (list bright_water_args);
  fg_check_image : option (array2 Z);
  fg_bimodality_set : array2 Z
}.

Definition bound {A} (v : option A) : result A :=
  match v with
  | Some a => Ok a
  | None => Raise UnboundLocalError
  end.

Section Drivers.
Context {N : Numerics} {S : BlockRasterStore}.

(** The files a worker of the dark-land pool opens. *)
Definition dark_land_files (cfg : remove_false_water_config) (s : store) : raster_files :=
  {| landcover_tif := in_landcover (rf_input_dict cfg);
     intensity_tif := in_intensity (rf_input_dict cfg);
     ref_land_tif := in_ref_land (rf_input_dict cfg);
     label_tif := file_content s FalseWaterLabel |}.

(** Lines 920-935: the pool, its results in the order of the arguments. *)
Definition dark_land_pool (cfg : remove_false_water_config) (files : raster_files)
    (pol_ind : nat) (component_data : list (nat * Z * bounds_t))
    : result (list dark_land_result) :=
  mapM (fun args => process_dark_land_component args files)
       (dark_land_args_list cfg pol_ind component_data).

(** Lines 910-955: the body of the loop over the polarizations. *)
Definition remove_false_water_pol (cfg : remove_false_water_config)
    (files : raster_files) (cc : cc_output)
    (component_data : list (nat * Z * bounds_t))
    (st : remove_false_water_pols) (p : nat * string) : result remove_false_water_pols :=
  let '(pol_ind, pol) := p in
  if is_copol_or_crosspol pol then
    results ← dark_land_pool cfg files pol_ind component_data;
    '(bimodality_image, check_image) ←
      dark_land_scatter (rf_debug_mode cfg) (length (tail (cc_stats cc)))
                        (cc_labels cc) results;
    Ok {| bimodality_set := bimodality_set st ++ [bimodality_image];
          check_image := Some check_image |}
  else Ok st.

(** Lines 846-1025: the body of the loop over the blocks.  The state is
    the raster store and the current [water_mask_path].  The labels of a
    block have [cols] columns. *)
Definition remove_false_water_block (cfg : remove_false_water_config)
    (block_iter : nat) (st : store * path) (bp : BlockParam) : result (store * path) :=
  let '(s, water_mask_path) := st in
  let water_mask := get_raster_block s water_mask_path bp in
  let cc := connectedComponentsWithStats (astype_uint8 water_mask) in
  let output_water := cc_labels cc in
  let s := write_raster_block s FalseWaterLabel output_water bp in
  let component_data :=
    dark_land_component_data bp (rf_rows cfg) (rf_cols cfg)
                             (rf_minimum_pixel cfg) (cc_stats cc) in
  ps ← foldlM (remove_false_water_pol cfg (dark_land_files cfg s) cc component_data)
        {| bimodality_set := []; check_image := None |}
        (enumerate (rf_pol_list cfg));
  bimodality_total ←
    (if existsb is_copol_or_crosspol (rf_pol_list cfg)
     then
       if squeezed output_water (rf_cols cfg) then Raise IndexError
       else Ok (mask_background output_water (sum_images (bimodality_set ps)))
     else Ok water_mask);
  let s := write_raster_block s (RemoveFalseWaterTemp block_iter) bimodality_total bp in
  check_image ← bound (check_image ps);
  let s := write_raster_block s CheckRemoveFalseWater check_image bp in
  let water_mask_path :=
    if rf_rows cfg <=? block_length bp + read_start_line bp
    then CheckRemoveFalseWater else water_mask_path in
  Ok (s, water_mask_path).

(** [lines_per_block_set = [input_lines_per_block, rows]] *)
Definition lines_per_block_set (input_lines_per_block rows : Z) : list Z :=
  [input_lines_per_block; rows].

(** Lines 836-846: one pass over the blocks of [lines_per_block] lines. *)
Definition remove_false_water_pass (cfg : remove_false_water_config)
    (st : store * path * list path) (p : nat * Z) : result (store * path * list path) :=
  let '(s, water_mask_path, remove_false_water_path_set) := st in
  let '(block_iter, lines_per_block) := p in
  let block_params :=
    block_param_generator lines_per_block (rf_rows cfg, rf_cols cfg) (0, 0) in
  let remove_false_water_path_set :=
    remove_false_water_path_set ++ [RemoveFalseWaterTemp block_iter] in
  '(s, water_mask_path) ←
    foldlM (remove_false_water_block cfg block_iter) (s, water_mask_path) block_params;
  Ok (s, water_mask_path, remove_false_water_path_set).

Definition remove_false_water_bimodality_parallel (cfg : remove_false_water_config)
    (s : store) : result (array2 Z) :=
  let input_lines_per_block := rf_lines_per_block cfg in
  '(s, _, remove_false_water_path_set) ←
    foldlM (remove_false_water_pass cfg) (s, InputMask, [])
           (enumerate (lines_per_block_set input_lines_per_block (rf_rows cfg)));
  if (2 <=? length remove_false_water_path_set)%nat then
    let s := merge_binary_layers s remove_false_water_path_set [1; 1]
               MergedRemovedFalseWater input_lines_per_block in
    Ok (read_geotiff s MergedRemovedFalseWater)
  else
    merged ← getitem remove_false_water_path_set 0;
    Ok (read_geotiff s merged).

(** The files a worker of the bright-water pool opens. *)
Definition bright_water_files (cfg : fill_gap_config) (s : store) : raster_files :=
  {| landcover_tif := in_landcover (fg_input_dict cfg);
     intensity_tif := in_intensity (fg_input_dict cfg);
     ref_land_tif := in_ref_land (fg_input_dict cfg);
     label_tif := file_content s WaterLabelBrightWater |}.

(** Lines 1191-1193: the pool. *)
Definition bright_water_pool (files : raster_files)
    (args_list : list bright_water_args) : result (list bright_water_result) :=
  mapM (fun args => process_bright_water_component args files) args_list.

(** Lines 1175-1211: the body of the loop over the polarizations.  The
    pool and the scatter run for every polarization, on the arrays and the
    argument list the last co- or cross-polarization has bound. *)
Definition fill_gap_pol (cfg : fill_gap_config) (files : raster_files)
    (cc : cc_output) (component_data : list (nat * Z * bounds_t))
    (st : fill_gap_pols) (p : nat * string) : result fill_gap_pols :=
  let '(pol_ind, pol) := p in
  let nb := length (tail (cc_stats cc)) in
  let st :=
    if is_copol_or_crosspol pol then
      {| fg_bimodality_output := Some (replicate nb 0);
         fg_check_output := Some (replicate nb 1);
         fg_args_list := Some (bright_water_args_list cfg pol_ind component_data);
         fg_check_image := fg_check_image st;
         fg_bimodality_set := fg_bimodality_set st |}
    else st in
  args_list ← bound (fg_args_list st);
  results ← bright_water_pool files args_list;
  bimodality_output ← bound (fg_bimodality_output st);
  check_output ← bound (fg_check_output st);
  '(bimodality_output, check_output, bimodality_image, check_image) ←
    bright_water_scatter (fg_threshold cfg) nb (cc_labels cc)
                         (bimodality_output, check_output) results;
  Ok {| fg_bimodality_output := Some bimodality_output;
        fg_check_output := Some check_output;
        fg_args_list := fg_args_list st;
        fg_check_image := Some check_image;
        fg_bimodality_set := zip2d Z.add (fg_bimodality_set st) bimodality_image |}.

(** Lines 1114-1238: the body of the loop over the blocks.  The names bound
    by the loop over the polarizations stay bound from one block to the
    next, [bimodality_set] apart. *)
Definition fill_gap_block (cfg : fill_gap_config) (block_iter : nat)
    (bright_water_path : path) (st : store * fill_gap_pols) (bp : BlockParam)
    : result (store * fill_gap_pols) :=
  let '(s, vars) := st in
  let water_mask := get_raster_block s bright_water_path bp in
  let out_boundary := get_raster_block s NoDataArea bp in
  let water_mask := zip2d (fun o w => if o =? 1 then 0 else w) out_boundary water_mask in
  let cc := connectedComponentsWithStats (astype_uint8 water_mask) in
  let output_water := cc_labels cc in
  let s := write_raster_block s WaterLabelBrightWater output_water bp in
  let bimodality_set :=
    replicate (Z.to_nat (block_length bp)) (replicate (Z.to_nat (fg_cols cfg)) 0) in
  let component_data :=
    bright_water_component_data bp (fg_rows cfg) (fg_cols cfg) (cc_stats cc) in
  ps ← foldlM (fill_gap_pol cfg (bright_water_files cfg s) cc component_data)
        {| fg_bimodality_output := fg_bimodality_output vars;
           fg_check_output := fg_check_output vars;
           fg_args_list := fg_args_list vars;
           fg_check_image := fg_check_image vars;
           fg_bimodality_set := bimodality_set |}
        (enumerate (fg_pol_list cfg));
  let bimodal_ad_binary := map2d (fun v => Z.b2z (0 <? v)) (fg_bimodality_set ps) in
  let bimodal_ad_binary := mask_background output_water bimodal_ad_binary in
  let s := write_raster_block s (FillGapWaterTemp block_iter) bimodal_ad_binary bp in
  check_image ← bound (fg_check_image ps);
  Ok (write_raster_block s CheckFillGap check_image bp, ps).

(** Lines 1103-1244: one pass; the path of the next pass is decided after
    the loop, on the last block: [block_param] is the last block of this
    pass, or of an earlier pass when this one has no block, and is not
    bound when no pass had a block so far. *)
Definition fill_gap_pass (cfg : fill_gap_config)
    (st : store * fill_gap_pols * option BlockParam * path * list path) (p : nat * Z)
    : result (store * fill_gap_pols * option BlockParam * path * list path) :=
  let '(s, vars, block_param, bright_water_path, remove_bright_water_path_set) := st in
  let '(block_iter, lines_per_block) := p in
  let block_params :=
    block_param_generator lines_per_block (fg_rows cfg, fg_cols cfg) (0, 0) in
  let remove_bright_water_path_set :=
    remove_bright_water_path_set ++ [FillGapWaterTemp block_iter] in
  '(s, vars) ←
    foldlM (fill_gap_block cfg block_iter bright_water_path) (s, vars) block_params;
  let block_param :=
    match last block_params with
    | Some bp => Some bp
    | None => block_param
    end in
  bp ← bound block_param;
  let bright_water_path :=
    if fg_rows cfg <=? block_length bp + read_start_line bp
    then CheckFillGap else bright_water_path in
  Ok (s, vars, block_param, bright_water_path, remove_bright_water_path_set).

Definition fill_gap_water_bimodality_parallel (cfg : fill_gap_config)
    (s : store) : result (array2 bool) :=
  let input_lines_per_block := fg_lines_per_block cfg in
  let unbound :=
    {| fg_bimodality_output := None; fg_check_output := None;
       fg_args_list := None; fg_check_image := None;
       fg_bimodality_set := [] |} in
  '(s, _, _, _, remove_bright_water_path_set) ←
    foldlM (fill_gap_pass cfg) (s, unbound, None, InputMask, [])
           (enumerate (lines_per_block_set input_lines_per_block (fg_rows cfg)));
  let s := merge_binary_layers s remove_bright_water_path_set [1; 1]
             MergedFillGap input_lines_per_block in
  Ok (map2d (fun v => v =? 1) (read_geotiff s MergedFillGap)).

End Drivers.

(** ** The decision rule, in the specification's words *)

(** At least two of three tests hold. *)
Definition at_least_two (a b c : bool) : Prop :=
  (a = true /\ b = true) \/ (a = true /\ c = true) \/ (b = true /\ c = true).

(** The verdict of a dark-land result. *)
Definition dl_verdict (r : dark_land_result) : bool := r.1.1.2.

(** ** Sample inputs *)

(** Numerical kernels for the examples: the Otsu threshold lies inside the
    window, the fit fails and the histogram sweep reports two well
    separated modes. *)
Definition sample_numerics : Numerics :=
  {| log10 := fun x => x;
     threshold_otsu := fun _ => Num (-10);
     threshold_multiotsu := fun _ => [Num (-25); Num (-12)];
     curve_fit := fun _ _ => None;
     compute_ashman := fun _ => fzero;
     compute_bhc := fun _ => fzero;
     compute_surface_ratio := fun _ => fzero;
     compute_bimodality := fun _ => fzero;
     compute_bc_coefficient := fun _ => fzero;
     estimate_bimodality := fun _ => (Num 1, Num 2) |}.

(** Kernels of a sample with three clusters, two of them far below the
    window and one above 0 dB: the global threshold is -20 dB and the
    multi-level thresholds are -25 dB and 2 dB. *)
Definition three_cluster_numerics : Numerics :=
  {| log10 := fun x => x;
     threshold_otsu := fun _ => Num (-20);
     threshold_multiotsu := fun _ => [Num (-25); Num 2];
     curve_fit := fun _ _ => None;
     compute_ashman := fun _ => fzero;
     compute_bhc := fun _ => fzero;
     compute_surface_ratio := fun _ => fzero;
     compute_bimodality := fun _ => fzero;
     compute_bc_coefficient := fun _ => fzero;
     estimate_bimodality := fun _ => (Num 1, Num 2) |}.

(** [thresholds=[1.5, 0.97, 0.1, 0.7]] *)
Definition default_thresholds : list float64 :=
  [Num (3 # 2); Num (97 # 100); Num (1 # 10); Num (7 # 10)].

(** A 4x4 window: a component of four pixels (label 1) in the middle, on
    reference land everywhere. *)
Definition square_labels : array2 Z :=
  [[0; 0; 0; 0]; [0; 1; 1; 0]; [0; 1; 1; 0]; [0; 0; 0; 0]].

(** The component is brighter (0.5) than its surroundings (0.1). *)
Definition bright_square : array2 float64 :=
  [[Num (1 # 10); Num (1 # 10); Num (1 # 10); Num (1 # 10)];
   [Num (1 # 10); Num (1 # 2); Num (1 # 2); Num (1 # 10)];
   [Num (1 # 10); Num (1 # 2); Num (1 # 2); Num (1 # 10)];
   [Num (1 # 10); Num (1 # 10); Num (1 # 10); Num (1 # 10)]].

Definition bright_square_files : raster_files :=
  {| landcover_tif := replicate 4 (replicate 4 1);
     intensity_tif := [bright_square];
     ref_land_tif := replicate 4 (replicate 4 (Num 1));
     label_tif := square_labels |}.

Definition square_args : dark_land_args :=
  {| dl_i := 0; dl_sizes := 4; dl_bounds := (0, 4, 0, 4); dl_pol_ind := 0;
     dl_thresholds := default_thresholds; dl_minimum_pixel := 4;
     dl_debug_mode := false |}.

(** A 2x4 window: a dark component of four pixels (0.01) at the left, two
    brighter pixels (0.1) next to it, and two pixels without data. *)
Definition edge_labels : array2 Z := [[1; 1; 0; 0]; [1; 1; 0; 0]].

Definition edge_band : array2 float64 :=
  [[Num (1 # 100); Num (1 # 100); Num (1 # 10); NaN];
   [Num (1 # 100); Num (1 # 100); Num (1 # 10); NaN]].

Definition edge_files : raster_files :=
  {| landcover_tif := replicate 2 (replicate 4 1);
     intensity_tif := [edge_band];
     ref_land_tif := replicate 2 (replicate 4 (Num 1));
     label_tif := edge_labels |}.

Definition edge_args : dark_land_args :=
  {| dl_i := 0; dl_sizes := 4; dl_bounds := (0, 4, 0, 2); dl_pol_ind := 0;
     dl_thresholds := default_thresholds; dl_minimum_pixel := 4;
     dl_debug_mode := false |}.

(** A component of three pixels over water of the reference-land raster
    (land portion 0), below [minimum_pixel = 4]. *)
Definition small_labels : array2 Z := [[0; 0; 0]; [1; 1; 1]; [0; 0; 0]].

Definition small_files : raster_files :=
  {| landcover_tif := replicate 3 (replicate 3 1);
     intensity_tif := [replicate 3 (replicate 3 (Num (1 # 10)))];
     ref_land_tif := replicate 3 (replicate 3 (Num 0));
     label_tif := small_labels |}.

Definition small_args : dark_land_args :=
  {| dl_i := 0; dl_sizes := 3; dl_bounds := (0, 3, 0, 3); dl_pol_ind := 0;
     dl_thresholds := default_thresholds; dl_minimum_pixel := 4;
     dl_debug_mode := false |}.

(** The same window with a component of four pixels, over water
    (land portion 0) and over pixels without reference land (NaN). *)
Definition water_files : raster_files :=
  {| landcover_tif := replicate 4 (replicate 4 1);
     intensity_tif := [bright_square];
     ref_land_tif := replicate 4 (replicate 4 (Num 0));
     label_tif := square_labels |}.

Definition nan_land_files : raster_files :=
  {| landcover_tif := replicate 4 (replicate 4 1);
     intensity_tif := [bright_square];
     ref_land_tif := replicate 4 (replicate 4 NaN);
     label_tif := square_labels |}.

(** A gap of four pixels for the bright-water test, on reference land
    (water portion 0). *)
Definition gap_args : bright_water_args :=
  {| bw_ind := 0; bw_sizes := 4; bw_bounds := (0, 4, 0, 4); bw_pol_ind := 0;
     bw_threshold := [Num (7 # 10); Num (3 # 2)] |}.

(** A fitted object whose sample has five values. *)
Definition fitted_object : BimodalityMetrics :=
  {| intensity_array := replicate 5 (Num 1);
     int_db := replicate 5 (Num (-10));
     threshold_global_otsu := Num (-10);
     optimization := true;
     modes := Some ((Num (-20), Num 1, Num (1 # 2)), (Num (-5), Num 1, Num (1 # 2))) |}.

Definition unfitted_object : BimodalityMetrics :=
  {| intensity_array := replicate 5 (Num 1);
     int_db := replicate 5 (Num (-10));
     threshold_global_otsu := Num (-10);
     optimization := false;
     modes := None |}.

(** ** Definitions used by the proofs *)

(** The component a result belongs to. *)
Definition dl_index (r : dark_land_result) : nat := r.1.1.1.
Definition bw_index (r : bright_water_result) : nat := r.2.

(** [assign_dark_land] as a guarded update. *)
Definition dl_in_range (debug_mode : bool) (a : dark_land_arrays) (i : nat) : bool :=
  bool_decide (i < length (bimodality_output a))%nat
  && bool_decide (i < length (check_output a))%nat
  && (negb debug_mode
      || bool_decide (i < length (ref_land_portion_output a))%nat
         && bool_decide (i < length (metric_output a))%nat).

Definition dl_update (debug_mode : bool) (a : dark_land_arrays)
    (r : dark_land_result) : dark_land_arrays :=
  let '(i, b, p, m) := r in
  {| bimodality_output := <[i := Z.b2z b]> (bimodality_output a);
     check_output := <[i := 0]> (check_output a);
     ref_land_portion_output :=
       if debug_mode then <[i := p]> (ref_land_portion_output a)
       else ref_land_portion_output a;
     metric_output :=
       if debug_mode then <[i := m]> (metric_output a) else metric_output a |}.

(** [assign_bright_water] as a guarded update. *)
Definition bw_in_range (threshold : list float64) (a : list Z * list Z) (i : nat) : bool :=
  bool_decide (1 < length threshold)%nat
  && bool_decide (i < length a.1)%nat && bool_decide (i < length a.2)%nat.

Definition bw_update (threshold : list float64) (a : list Z * list Z)
    (r : bright_water_result) : list Z * list Z :=
  let verdict :=
    flt r.1.1 (nth 0 threshold NaN) || flt r.1.2 (nth 1 threshold NaN) in
  (<[bw_index r := Z.b2z verdict]> a.1, <[bw_index r := 0]> a.2).

(** The key of an entry of [component_data]. *)
Definition component_key (c : nat * Z * bounds_t) : nat := c.1.1.

(** The pixel [(r, c)] of an image. *)
Definition pixel {A} (img : array2 A) (r c : nat) : option A :=
  img !! r ≫= fun row => row !! c.

(** What the loop over the polarizations keeps true for a deferred
    component: no image gives it a verdict, and the check image flags it. *)
Definition deferred_in (ps : remove_false_water_pols) (r c : nat) : Prop :=
  Forall (fun im => pixel im r c = Some 0) (bimodality_set ps)
  /\ forall chk, check_image ps = Some chk ->
       pixel chk r c = Some 1 /\ bimodality_set ps ≠ [].

#[global] Instance path_eq_dec : EqDecision path.
Proof. solve_decision. Defined.

(** Modelled from the spec: [dswx_sar_util.block_param_generator], which is
    not part of the sources at hand.  The blocks are contiguous row windows
    of [lines_per_block] lines that cover the raster; without padding a
    block is read where it is written. *)
Definition spec_block_param_generator (lines_per_block : Z) (shape pad : Z * Z)
    : list BlockParam :=
  let rows := shape.1 in
  (fun k : nat =>
     let start := Z.of_nat k * lines_per_block in
     {| block_length := Z.min lines_per_block (rows - start);
        read_start_line := start;
        read_length := Z.min lines_per_block (rows - start) |})
    <$> seq 0 (Z.to_nat ((rows + lines_per_block - 1) / lines_per_block)).

(** The rows of [data] written over [old] from the row [start] on. *)
Definition write_rows {A} (old data : array2 A) (start : nat) : array2 A :=
  take start old ++ data ++ drop (start + length data) old.

(** Modelled from the spec: the raster input and output of [dswx_sar_util]
    ([get_raster_block], [write_raster_block], [read_geotiff],
    [merge_binary_layers] in mode 'or'), on rasters held in memory.  The
    labelling [cc] stands for OpenCV. *)
Definition memory_store (cc : array2 Z -> cc_output) : BlockRasterStore :=
  {| store := path -> array2 Z;
     block_param_generator := spec_block_param_generator;
     get_raster_block := fun s p bp =>
       take (Z.to_nat (read_length bp)) (drop (Z.to_nat (read_start_line bp)) (s p));
     write_raster_block := fun s p data bp q =>
       if decide (q = p) then write_rows (s p) data (Z.to_nat (read_start_line bp))
       else s q;
     read_geotiff := fun s p => s p;
     merge_binary_layers := fun s layers values out _ q =>
       if decide (q = out) then
         foldr (zip2d Z.lor) (map2d (fun _ => 0) (s (default out (head layers))))
               ((fun '(p, v) => map2d (fun x => Z.b2z (x =? v)) (s p))
                  <$> zip layers values)
       else s q;
     file_content := fun s p => s p;
     connectedComponentsWithStats := cc |}.

(** A block of six lines of a raster of twelve lines and five columns:
    two components inside the block and one that reaches its last line. *)
Definition sample_labels : array2 Z :=
  [[0; 0; 0; 0; 0];
   [1; 1; 0; 2; 2];
   [1; 1; 0; 2; 2];
   [0; 0; 0; 0; 0];
   [3; 3; 0; 0; 0];
   [3; 3; 0; 0; 0]].

Definition sample_cc : cc_output :=
  {| cc_labels := sample_labels;
     cc_stats := [(0, 0, 5, 6, 18); (0, 1, 2, 2, 4); (3, 1, 2, 2, 4); (0, 4, 2, 2, 4)] |}.

Definition sample_store : BlockRasterStore := memory_store (fun _ => sample_cc).

Definition sample_block : BlockParam :=
  {| block_length := 6; read_start_line := 0; read_length := 6 |}.

Definition sample_input_dict : input_dict :=
  {| in_ref_land := replicate 12 (replicate 5 (Num 0));
     in_landcover := replicate 12 (replicate 5 1);
     in_intensity := [replicate 12 (replicate 5 (Num (1 # 10)))] |}.

Definition sample_config : remove_false_water_config :=
  {| rf_pol_list := ["VV"%string]; rf_thresholds := default_thresholds;
     rf_rows := 12; rf_cols := 5; rf_input_dict := sample_input_dict;
     rf_minimum_pixel := 4; rf_debug_mode := false; rf_lines_per_block := 6 |}.

(** The water mask of the sample: the third component goes on below the
    block. *)
Definition sample_mask : array2 Z :=
  [[0; 0; 0; 0; 0];
   [1; 1; 0; 1; 1];
   [1; 1; 0; 1; 1];
   [0; 0; 0; 0; 0];
   [1; 1; 0; 0; 0];
   [1; 1; 0; 0; 0];
   [1; 1; 0; 0; 0];
   [0; 0; 0; 0; 0];
   [0; 0; 0; 0; 0];
   [0; 0; 0; 0; 0];
   [0; 0; 0; 0; 0];
   [0; 0; 0; 0; 0]].

Definition sample_rasters : @store sample_store :=
  fun p => match p with
           | InputMask => sample_mask
           | _ => replicate 12 (replicate 5 0)
           end.

Definition sample_fill_gap_config : fill_gap_config :=
  {| fg_pol_list := ["VV"%string]; fg_threshold := [Num (7 # 10); Num (3 # 2)];
     fg_rows := 12; fg_cols := 5; fg_input_dict := sample_input_dict;
     fg_lines_per_block := 6 |}.

Definition sample_files : raster_files :=
  {| landcover_tif := in_landcover sample_input_dict;
     intensity_tif := in_intensity sample_input_dict;
     ref_land_tif := in_ref_land sample_input_dict;
     label_tif := sample_labels ++ replicate 6 (replicate 5 0) |}.

(** The results of the two pools on the sample block. *)
Definition sample_dark_land_results : list dark_land_result :=
  [(0%nat, true, Num (0 # 4), zeros 5); (1%nat, true, Num (0 # 4), zeros 5)].

Definition sample_bright_water_results : list bright_water_result :=
  [(Num 1, Num 2, 0%nat); (Num 1, Num 2, 1%nat)].

(** Kernels of a dark sample: the global threshold (-20 dB) is below the
    window, the second multi-level threshold (-12 dB) is inside it, and the
    fit returns the brighter mode first. *)
Definition dark_cluster_numerics : Numerics :=
  {| log10 := fun x => x;
     threshold_otsu := fun _ => Num (-20);
     threshold_multiotsu := fun _ => [Num (-25); Num (-12); Num (-5)];
     curve_fit := fun _ _ =>
       Some ((Num (-5), Num 1, Num (1 # 2)), (Num (-20), Num 1, Num (1 # 2)));
     compute_ashman := fun _ => Num 4;
     compute_bhc := fun _ => fzero;
     compute_surface_ratio := fun _ => Num (1 # 2);
     compute_bimodality := fun _ => fzero;
     compute_bc_coefficient := fun _ => fzero;
     estimate_bimodality := fun _ => (Num 1, Num 2) |}.

(** Kernels of a sample whose thresholds are all below the window. *)
Definition very_dark_numerics : Numerics :=
  {| log10 := fun x => x;
     threshold_otsu := fun _ => Num (-20);
     threshold_multiotsu := fun _ => [Num (-25); Num (-22)];
     curve_fit := fun _ _ => None;
     compute_ashman := fun _ => fzero;
     compute_bhc := fun _ => fzero;
     compute_surface_ratio := fun _ => fzero;
     compute_bimodality := fun _ => fzero;
     compute_bc_coefficient := fun _ => fzero;
     estimate_bimodality := fun _ => (Num 1, Num 2) |}.

(** The kernels [N] with another Bhattacharyya coefficient. *)
Definition with_bhc (N : Numerics) (f : BimodalityMetrics -> float64) : Numerics :=
  {| log10 := log10;
     threshold_otsu := threshold_otsu;
     threshold_multiotsu := threshold_multiotsu;
     curve_fit := curve_fit;
     compute_ashman := compute_ashman;
     compute_bhc := f;
     compute_surface_ratio := compute_surface_ratio;
     compute_bimodality := compute_bimodality;
     compute_bc_coefficient := compute_bc_coefficient;
     estimate_bimodality := estimate_bimodality |}.

(** The flags with another [bhc_flag]. *)
Definition with_bhc_flag (b : bool) (flags : metric_flags) : metric_flags :=
  {| ashman_flag := ashman_flag flags; bhc_flag := b; bm_flag := bm_flag flags;
     surface_ratio_flag := surface_ratio_flag flags; bc_flag := bc_flag flags |}.

(** The window of [edge_files] with a second component (label 2) in the
    last column. *)
Definition neighbour_files : raster_files :=
  {| landcover_tif := replicate 2 (replicate 4 1);
     intensity_tif := [replicate 2 (replicate 4 (Num (1 # 100)))];
     ref_land_tif := replicate 2 (replicate 4 (Num 1));
     label_tif := [[1; 1; 0; 2]; [1; 1; 0; 2]] |}.

(** A window that the component fills: no pixel is left around it. *)
Definition lone_files : raster_files :=
  {| landcover_tif := replicate 2 (replicate 2 1);
     intensity_tif := [replicate 2 (replicate 2 (Num (1 # 100)))];
     ref_land_tif := replicate 2 (replicate 2 (Num 1));
     label_tif := replicate 2 (replicate 2 1) |}.

Definition lone_args : dark_land_args :=
  {| dl_i := 0; dl_sizes := 4; dl_bounds := (0, 2, 0, 2); dl_pol_ind := 0;
     dl_thresholds := default_thresholds; dl_minimum_pixel := 4;
     dl_debug_mode := false |}.

(** The sample configurations with a polarization outside VV, VH, HH and
    HV in the first place. *)
Definition ratio_config : remove_false_water_config :=
  {| rf_pol_list := ["ratio"%string]; rf_thresholds := default_thresholds;
     rf_rows := 12; rf_cols := 5; rf_input_dict := sample_input_dict;
     rf_minimum_pixel := 4; rf_debug_mode := false; rf_lines_per_block := 6 |}.

Definition span_fill_gap_config : fill_gap_config :=
  {| fg_pol_list := ["span"%string; "VV"%string];
     fg_threshold := [Num (7 # 10); Num (3 # 2)];
     fg_rows := 12; fg_cols := 5; fg_input_dict := sample_input_dict;
     fg_lines_per_block := 6 |}.

(** The variables of the loop over the polarizations after a listed
    polarization on the sample block. *)
Definition sample_fill_gap_pols : fill_gap_pols :=
  {| fg_bimodality_output := Some [0; 0; 0; 0];
     fg_check_output := Some [0; 0; 0; 1];
     fg_args_list := Some (bright_water_args_list sample_fill_gap_config 0
                             (bright_water_component_data sample_block 12 5
                                (cc_stats sample_cc)));
     fg_check_image := None;
     fg_bimodality_set := replicate 6 (replicate 5 0) |}.

(** ** The outcome of the passes over the blocks *)

(** The argument tuple line 920 builds for the entry [comp] of
    [component_data] and the polarization of index [pol_ind]. *)
Definition component_args (cfg : remove_false_water_config) (pol_ind : nat)
    (comp : nat * Z * bounds_t) : dark_land_args :=
  let '(ind, size, bounds) := comp in
  {| dl_i := ind; dl_sizes := size; dl_bounds := bounds;
     dl_pol_ind := pol_ind; dl_thresholds := rf_thresholds cfg;
     dl_minimum_pixel := rf_minimum_pixel cfg;
     dl_debug_mode := rf_debug_mode cfg |}.

(** The polarizations of [pol_list] that the loop of line 910 works on,
    with their indices. *)
Definition listed_pols (cfg : remove_false_water_config) : list (nat * string) :=
  List.filter (fun p : nat * string => is_copol_or_crosspol p.2)
              (enumerate (rf_pol_list cfg)).

(** The number of verdicts that are True. *)
Definition count_true (verdicts : list bool) : Z :=
  foldr (fun v n => Z.b2z v + n) 0 verdicts.

Section BlockOutcome.
Context {N : Numerics} {S : BlockRasterStore}.

(** The verdicts of the workers of [comp], one per listed polarization. *)
Definition component_verdicts (cfg : remove_false_water_config) (files : raster_files)
    (comp : nat * Z * bounds_t) : result (list bool) :=
  mapM (fun p : nat * string =>
          dl_verdict <$> process_dark_land_component (component_args cfg p.1 comp) files)
       (listed_pols cfg).

(** What one run of the body of the block loop, from the state [st] to the
    state [st'], has written for the components of the block: a component
    that [dark_land_component] leaves out of [component_data] (its bounding
    box touches the first or the last line of the block, or it is smaller
    than [minimum_pixel]) keeps 1 in the check raster and has 0 in the
    output of the pass; a component sent to the pool has 0 in the check
    raster and, in the output of the pass, the number of listed
    polarizations for which its worker answered True. *)
Definition block_outcome (cfg : remove_false_water_config) (block_iter : nat)
    (st : store * path) (bp : BlockParam) (st' : store * path) : Prop :=
  let cc := connectedComponentsWithStats
              (astype_uint8 (get_raster_block st.1 st.2 bp)) in
  let s_label := write_raster_block st.1 FalseWaterLabel (cc_labels cc) bp in
  let files := dark_land_files cfg s_label in
  exists bimodality_total check_image,
    st'.1 = write_raster_block
              (write_raster_block s_label (RemoveFalseWaterTemp block_iter)
                                  bimodality_total bp)
              CheckRemoveFalseWater check_image bp
    /\ st'.2 = (if rf_rows cfg <=? block_length bp + read_start_line bp
                then CheckRemoveFalseWater else st.2)
    /\ forall ind st_row r c,
         tail (cc_stats cc) !! ind = Some st_row ->
         pixel (cc_labels cc) r c = Some (label_of ind) ->
         match dark_land_component bp (rf_rows cfg) (rf_cols cfg)
                                   (rf_minimum_pixel cfg) ind st_row with
         | None =>
             pixel check_image r c = Some 1
             /\ pixel bimodality_total r c = Some 0
         | Some comp =>
             pixel check_image r c = Some 0
             /\ exists verdicts,
                  component_verdicts cfg files comp = Ok verdicts
                  /\ pixel bimodality_total r c = Some (count_true verdicts)
         end.

(** The blocks of a pass, run one after the other from the state [st] to
    the state [st_end], each with its outcome. *)
Fixpoint blocks_run (cfg : remove_false_water_config) (block_iter : nat)
    (st : store * path) (block_params : list BlockParam) (st_end : store * path) : Prop :=
  match block_params with
  | [] => st_end = st
  | bp :: block_params' =>
      exists st',
        remove_false_water_block cfg block_iter st bp = Ok st'
        /\ block_outcome cfg block_iter st bp st'
        /\ blocks_run cfg block_iter st' block_params' st_end
  end.

End BlockOutcome.

(** A raster of 12 lines and 5 columns read in blocks of 6 lines.  The
    component A (columns 0-1, lines 0-7) touches the first line of the
    raster and crosses the seam between the blocks; the component B
    (columns 3-4, lines 4-8) crosses the seam only. *)
Definition seam_mask : array2 Z :=
  [[1; 1; 0; 0; 0];
   [1; 1; 0; 0; 0];
   [1; 1; 0; 0; 0];
   [1; 1; 0; 0; 0];
   [1; 1; 0; 1; 1];
   [1; 1; 0; 1; 1];
   [1; 1; 0; 1; 1];
   [1; 1; 0; 1; 1];
   [0; 0; 0; 1; 1];
   [0; 0; 0; 0; 0];
   [0; 0; 0; 0; 0];
   [0; 0; 0; 0; 0]].

(** The labelling with 8-connectivity of the three masks the example
    meets (the first block, the second block, the whole raster): A gets the
    label 1 and B the label 2, in the order of the first pixel met.  Any
    other mask is left without component. *)
Definition seam_cc (mask : array2 Z) : cc_output :=
  if decide (mask = take 6 seam_mask) then
    {| cc_labels :=
         [[1; 1; 0; 0; 0]; [1; 1; 0; 0; 0]; [1; 1; 0; 0; 0]; [1; 1; 0; 0; 0];
          [1; 1; 0; 2; 2]; [1; 1; 0; 2; 2]];
       cc_stats := [(0, 0, 5, 6, 14); (0, 0, 2, 6, 12); (3, 4, 2, 2, 4)] |}
  else if decide (mask = drop 6 seam_mask) then
    {| cc_labels :=
         [[1; 1; 0; 2; 2]; [1; 1; 0; 2; 2]; [0; 0; 0; 2; 2];
          [0; 0; 0; 0; 0]; [0; 0; 0; 0; 0]; [0; 0; 0; 0; 0]];
       cc_stats := [(0, 0, 5, 6, 20); (0, 0, 2, 2, 4); (3, 0, 2, 3, 6)] |}
  else if decide (mask = seam_mask) then
    {| cc_labels :=
         [[1; 1; 0; 0; 0]; [1; 1; 0; 0; 0]; [1; 1; 0; 0; 0]; [1; 1; 0; 0; 0];
          [1; 1; 0; 2; 2]; [1; 1; 0; 2; 2]; [1; 1; 0; 2; 2]; [1; 1; 0; 2; 2];
          [0; 0; 0; 2; 2]; [0; 0; 0; 0; 0]; [0; 0; 0; 0; 0]; [0; 0; 0; 0; 0]];
       cc_stats := [(0, 0, 5, 12, 34); (0, 0, 2, 8, 16); (3, 4, 2, 5, 10)] |}
  else
    {| cc_labels := map2d (fun _ => 0) mask;
       cc_stats := [(0, 0, 5, Z.of_nat (length mask), 5 * Z.of_nat (length mask))] |}.

Definition seam_store : BlockRasterStore := memory_store seam_cc.

Definition seam_rasters : @store seam_store :=
  fun p => match p with
           | InputMask => seam_mask
           | _ => replicate 12 (replicate 5 0)
           end.

(** * Properties *)

(** ** Comparisons *)

Lemma fgt_not_nan x y : fgt x y = true -> isnan x = false.
Proof. destruct x, y; simpl; congruence. Qed.

Lemma fge_upper_bound a x :
  fge (Num a) x = true -> isnan x = false /\ fgt x (Num a) = false.
Proof.
  destruct x as [|b]; simpl; [discriminate|].
  intros Hle. split; [reflexivity|]. unfold Qltb. now rewrite Hle.
Qed.

Lemma flt_add_half t : flt (fadd t (Num (1 # 2))) t = false.
Proof.
  destruct t as [|q]; simpl; [reflexivity|].
  unfold Qltb. apply negb_false_iff, Qle_bool_iff. lra.
Qed.

Lemma valid_all_nan l : Forall (fun x => isnan x = true) l -> valid l = [].
Proof.
  induction 1 as [|x l Hx _ IH]; [reflexivity|].
  destruct x; [|discriminate]. exact IH.
Qed.

Lemma nanmean_all_nan l : Forall (fun x => isnan x = true) l -> nanmean l = NaN.
Proof. intros Hl. unfold nanmean. now rewrite valid_all_nan. Qed.

Section ClassifierProperties.
Context {N : Numerics}.

(** C6.  A component whose size is below [minimum_pixel] is rejected by the
    dark-land classifier: the verdict is False, whatever the land portion
    and the intensities are. *)
Theorem dark_land_small_component_rejected args files :
  dl_sizes args < dl_minimum_pixel args ->
  process_dark_land_component args files
  = Ok (dl_i args, false, dl_ref_land_portion args files, zeros 5).
Proof.
  intros Hsmall. unfold process_dark_land_component.
  destruct (Z.leb_spec (dl_minimum_pixel args) (dl_sizes args)); [lia|reflexivity].
Qed.

(** C5, amended.  A component of at least [minimum_pixel] pixels whose land
    portion is at most 0.8 is accepted: the verdict is True, whatever the
    intensities of the component and of its surroundings are. *)
Theorem dark_land_water_dominant_accepted args files :
  dl_minimum_pixel args <= dl_sizes args ->
  fge (Num (8 # 10)) (dl_ref_land_portion args files) = true ->
  process_dark_land_component args files
  = Ok (dl_i args, true, dl_ref_land_portion args files, zeros 5).
Proof.
  intros Hsize Hland. apply fge_upper_bound in Hland as [Hnan Hgt].
  unfold process_dark_land_component.
  apply Z.leb_le in Hsize. now rewrite Hsize, Hnan, Hgt.
Qed.

(** C10.  When the reference-land values over the pixels of the component
    are all NaN, the land portion is NaN and the classifier returns the
    verdict False with a zero metric vector, whatever the size of the
    component is: the case is treated like a component that is too small. *)
Theorem dark_land_nan_land_rejected args files :
  Forall (fun x => isnan x = true) (dl_ref_land_masked args files) ->
  dl_ref_land_portion args files = NaN
  /\ process_dark_land_component args files = Ok (dl_i args, false, NaN, zeros 5).
Proof.
  intros Hnan. assert (Hp : dl_ref_land_portion args files = NaN)
    by now apply nanmean_all_nan.
  split; [exact Hp|]. unfold process_dark_land_component. rewrite Hp. simpl.
  now rewrite andb_false_r.
Qed.

(** C1, amended.  For a component of at least [minimum_pixel] pixels with a
    land portion above 0.8, if the median intensity inside the component
    is greater than the 15th percentile of the intensity in the adjacent
    ring, the verdict is False and no bimodality is computed. *)
Theorem dark_land_brighter_rejected args files single_band :
  dl_minimum_pixel args <= dl_sizes args ->
  fgt (dl_ref_land_portion args files) (Num (8 # 10)) = true ->
  getitem (dl_bands args files) (dl_pol_ind args) = Ok single_band ->
  fgt (dl_intensity_center args files single_band)
      (dl_intensity_adjacent_low args files single_band) = true ->
  process_dark_land_component args files
  = Ok (dl_i args, false, dl_ref_land_portion args files, zeros 5).
Proof.
  intros Hsize Hland Hband Hbright. unfold process_dark_land_component.
  apply Z.leb_le in Hsize. rewrite Hsize, (fgt_not_nan _ _ Hland), Hland, Hband.
  simpl. now rewrite Hbright.
Qed.

(** C4, amended.  When the component is not brighter than its surroundings,
    the bimodality test samples the intensity over the whole dilated buffer
    (the component together with its ring), NaN and zero dropped; with
    fewer than 5 samples the verdict is False, otherwise it is what
    [compute_metric] answers on the estimator built from that sample. *)
Theorem dark_land_bimodality_on_buffer args files single_band :
  dl_minimum_pixel args <= dl_sizes args ->
  fgt (dl_ref_land_portion args files) (Num (8 # 10)) = true ->
  getitem (dl_bands args files) (dl_pol_ind args) = Ok single_band ->
  fgt (dl_intensity_center args files single_band)
      (dl_intensity_adjacent_low args files single_band) = false ->
  dl_verdict <$> process_dark_land_component args files
  = if (length (dl_intensity_array args files single_band) <? 5)%nat
    then Ok false
    else
      metric_obj ← BimodalityMetrics_init
                     (dl_intensity_array args files single_band) default_bound;
      compute_metric metric_obj default_flags (dl_thresholds args).
Proof.
  intros Hsize Hland Hband Hdark. unfold process_dark_land_component.
  apply Z.leb_le in Hsize. rewrite Hsize, (fgt_not_nan _ _ Hland), Hland, Hband.
  simpl. rewrite Hdark.
  destruct (Nat.ltb_spec 4 (length (dl_intensity_array args files single_band)));
    destruct (Nat.ltb_spec (length (dl_intensity_array args files single_band)) 5);
    try lia; [|reflexivity].
  destruct (BimodalityMetrics_init _ _) as [obj|e]; [|reflexivity]. simpl.
  now destruct (compute_metric obj _ _).
Qed.

End ClassifierProperties.

Section MetricProperties.
Context {N : Numerics}.

Lemma b2z_sum_ge_2 a b c :
  (2 <=? Z.b2z a + Z.b2z b + Z.b2z c) = true <-> at_least_two a b c.
Proof.
  unfold at_least_two. destruct a, b, c; simpl; split; intros Hx;
    try reflexivity; try discriminate; try tauto;
    destruct Hx as [[? ?]|[[? ?]|[? ?]]]; discriminate.
Qed.

(** C3.  The decision rule of [compute_metric] with its default flags: when
    the fit succeeded and the sample has more than 4 values, the result is
    True iff (at least two of ashman > ashman_thr, bm_coeff > bm_thr,
    bc_coeff > 5/9 hold, or ashman > 3) and surface_ratio > surface_ratio_thr;
    when the fit failed, it is True iff the fallback estimator gives
    sigma_max > bm_thr and ad_max > 1.5. *)
Theorem compute_metric_decision_rule self ashman_thr bhc_thr surface_ratio_thr bm_thr :
  let thresholds := [ashman_thr; bhc_thr; surface_ratio_thr; bm_thr] in
  (optimization self = true -> (4 < length (int_db self))%nat ->
   exists flag,
     compute_metric self default_flags thresholds = Ok flag
     /\ (flag = true <->
         (at_least_two (fgt (compute_ashman self) ashman_thr)
                       (fgt (compute_bimodality self) bm_thr)
                       (fgt (compute_bc_coefficient self) (Num (5 # 9)))
          \/ fgt (compute_ashman self) (Num 3) = true)
         /\ fgt (compute_surface_ratio self) surface_ratio_thr = true))
  /\ (optimization self = false ->
      exists flag,
        compute_metric self default_flags thresholds = Ok flag
        /\ (flag = true <->
            fgt (estimate_bimodality (int_db self)).1 bm_thr = true
            /\ fgt (estimate_bimodality (int_db self)).2 (Num (3 # 2)) = true)).
Proof.
  intros thresholds. split.
  - intros Hfit Hlen. unfold compute_metric, get_metric. rewrite Hfit.
    apply Nat.ltb_lt in Hlen. rewrite Hlen. simpl.
    eexists. split; [reflexivity|].
    rewrite andb_true_r, andb_true_iff, orb_true_iff, b2z_sum_ge_2.
    reflexivity.
  - intros Hfit. unfold compute_metric. rewrite Hfit. simpl.
    destruct (estimate_bimodality (int_db self)) as [bt_max ad_max]. simpl.
    eexists. split; [reflexivity|]. now rewrite andb_true_iff.
Qed.

End MetricProperties.

Section BrightWaterProperties.
Context {N : Numerics}.


(** The threshold of the fit: an Otsu threshold inside the window is kept. *)
Lemma init_threshold_inside sample b0 b1 :
  flt (threshold_otsu sample) b0 = false ->
  init_threshold sample [b0; b1] = Ok (threshold_otsu sample).
Proof. intros Hin. unfold init_threshold. simpl. now rewrite Hin. Qed.

(** Below the window, with every multi-level threshold below it as well, the
    Otsu threshold is kept. *)
Lemma init_threshold_retained sample b0 b1 :
  flt (threshold_otsu sample) b0 = true ->
  Forall (fun m => fge m b0 = false) (threshold_multiotsu sample) ->
  init_threshold sample [b0; b1] = Ok (threshold_otsu sample).
Proof.
  intros Hlow Hall. unfold init_threshold. simpl. rewrite Hlow.
  replace (existsb _ _) with false; [reflexivity|].
  symmetry. apply not_true_iff_false. intros [m [Hin Hm]]%existsb_exists.
  rewrite Forall_forall in Hall. apply list_elem_of_In in Hin.
  specialize (Hall m Hin). congruence.
Qed.

(** Below the window, with a multi-level threshold at or above its lower
    bound but none strictly inside it, the constructor raises. *)
Lemma np_where_none {A} (p : A -> bool) l k :
  Forall (fun m => p m = false) l -> np_where_from k (p <$> l) = [].
Proof.
  intros Hall. revert k. induction Hall as [|m l Hm _ IH]; intros k; [reflexivity|].
  simpl. rewrite Hm. apply IH.
Qed.

Lemma init_threshold_raises sample b0 b1 :
  flt (threshold_otsu sample) b0 = true ->
  Exists (fun m => fge m b0 = true) (threshold_multiotsu sample) ->
  Forall (fun m => fgt m b0 && flt m b1 = false) (threshold_multiotsu sample) ->
  init_threshold sample [b0; b1] = Raise IndexError.
Proof.
  intros Hlow Hex Hall. unfold init_threshold. simpl. rewrite Hlow.
  assert (Hany : existsb (fun m => fge m b0) (threshold_multiotsu sample) = true).
  { apply existsb_exists. apply Exists_exists in Hex as [m [Hin Hm]].
    exists m. split; [now apply list_elem_of_In|exact Hm]. }
  rewrite Hany. simpl. unfold np_where.
  now rewrite (np_where_none (fun m => fgt m b0 && flt m b1)).
Qed.

End BrightWaterProperties.

(** C7, at the failing input.  With a global Otsu threshold of -20 dB, below
    the window [-18, 0], and multi-level thresholds -25 dB and 2 dB, one
    candidate is at or above the lower bound but none lies strictly inside
    the window: the constructor raises IndexError instead of keeping the
    threshold. *)
Theorem init_raises_on_candidate_above_window :
  BimodalityMetrics_init (N := three_cluster_numerics)
    [Num (1 # 100); Num (1 # 10); Num 2] default_bound = Raise IndexError.
Proof. reflexivity. Qed.

Lemma dark_land_small_component_rejected_witness :
  process_dark_land_component (N := sample_numerics) small_args small_files
  = Ok (0%nat, false, dl_ref_land_portion small_args small_files, zeros 5).
Proof.
  apply (dark_land_small_component_rejected (N := sample_numerics) small_args small_files).
  reflexivity.
Defined.

Lemma dark_land_water_dominant_accepted_witness :
  process_dark_land_component (N := sample_numerics) square_args water_files
  = Ok (0%nat, true, dl_ref_land_portion square_args water_files, zeros 5).
Proof.
  apply (dark_land_water_dominant_accepted (N := sample_numerics) square_args water_files).
  - discriminate.
  - reflexivity.
Defined.

Lemma dark_land_small_water_component_rejected :
  fge (Num (8 # 10)) (dl_ref_land_portion small_args small_files) = true
  /\ dl_verdict <$> process_dark_land_component (N := sample_numerics) small_args small_files
     = Ok false.
Proof. split; reflexivity. Qed.

Lemma dark_land_nan_land_rejected_witness :
  dl_ref_land_portion square_args nan_land_files = NaN
  /\ process_dark_land_component (N := sample_numerics) square_args nan_land_files
     = Ok (0%nat, false, NaN, zeros 5).
Proof.
  apply (dark_land_nan_land_rejected (N := sample_numerics) square_args nan_land_files).
  repeat constructor.
Defined.

Lemma dark_land_brighter_rejected_witness :
  process_dark_land_component (N := sample_numerics) square_args bright_square_files
  = Ok (0%nat, false, dl_ref_land_portion square_args bright_square_files, zeros 5).
Proof.
  apply (dark_land_brighter_rejected (N := sample_numerics)
           square_args bright_square_files bright_square).
  - discriminate.
  - reflexivity.
  - reflexivity.
  - reflexivity.
Defined.

Lemma dark_land_brighter_component_not_accepted :
  (dl_minimum_pixel square_args <=? dl_sizes square_args) = true
  /\ fgt (dl_ref_land_portion square_args bright_square_files) (Num (8 # 10)) = true
  /\ fgt (dl_intensity_center square_args bright_square_files bright_square)
         (dl_intensity_adjacent_low square_args bright_square_files bright_square) = true
  /\ dl_verdict <$> process_dark_land_component (N := sample_numerics)
                      square_args bright_square_files = Ok false.
Proof. repeat split; reflexivity. Qed.

Lemma dark_land_bimodality_on_buffer_witness :
  dl_verdict <$> process_dark_land_component (N := sample_numerics) edge_args edge_files
  = if (length (dl_intensity_array edge_args edge_files edge_band) <? 5)%nat
    then Ok false
    else
      metric_obj ← BimodalityMetrics_init (N := sample_numerics)
                     (dl_intensity_array edge_args edge_files edge_band) default_bound;
      compute_metric (N := sample_numerics) metric_obj default_flags
                     (dl_thresholds edge_args).
Proof.
  apply (dark_land_bimodality_on_buffer (N := sample_numerics)
           edge_args edge_files edge_band).
  - discriminate.
  - reflexivity.
  - reflexivity.
  - reflexivity.
Defined.

Lemma dark_land_sample_is_not_the_ring :
  (dl_minimum_pixel edge_args <=? dl_sizes edge_args) = true
  /\ fgt (dl_ref_land_portion edge_args edge_files) (Num (8 # 10)) = true
  /\ fgt (dl_intensity_center edge_args edge_files edge_band)
         (dl_intensity_adjacent_low edge_args edge_files edge_band) = false
  /\ spec_ring_intensity_array edge_args edge_files edge_band
     = [Num (1 # 10); Num (1 # 10)]
  /\ dl_intensity_array edge_args edge_files edge_band
     = [Num (1 # 100); Num (1 # 100); Num (1 # 10);
        Num (1 # 100); Num (1 # 100); Num (1 # 10)]
  /\ dl_verdict <$> process_dark_land_component (N := sample_numerics)
                      edge_args edge_files = Ok true.
Proof. repeat split; reflexivity. Qed.

Lemma compute_metric_decision_rule_witness :
  (exists flag,
     compute_metric (N := sample_numerics) fitted_object default_flags default_thresholds
     = Ok flag
     /\ (flag = true <->
         (at_least_two
            (fgt (compute_ashman (Numerics := sample_numerics) fitted_object) (Num (3 # 2)))
            (fgt (compute_bimodality (Numerics := sample_numerics) fitted_object) (Num (7 # 10)))
            (fgt (compute_bc_coefficient (Numerics := sample_numerics) fitted_object)
                 (Num (5 # 9)))
          \/ fgt (compute_ashman (Numerics := sample_numerics) fitted_object) (Num 3) = true)
         /\ fgt (compute_surface_ratio (Numerics := sample_numerics) fitted_object)
                (Num (1 # 10)) = true))
  /\ (exists flag,
        compute_metric (N := sample_numerics) unfitted_object default_flags default_thresholds
        = Ok flag
        /\ (flag = true <->
            fgt (estimate_bimodality (Numerics := sample_numerics)
                   (int_db unfitted_object)).1 (Num (7 # 10)) = true
            /\ fgt (estimate_bimodality (Numerics := sample_numerics)
                      (int_db unfitted_object)).2 (Num (3 # 2)) = true)).
Proof.
  split.
  - apply (proj1 (compute_metric_decision_rule (N := sample_numerics) fitted_object
                    (Num (3 # 2)) (Num (97 # 100)) (Num (1 # 10)) (Num (7 # 10)))).
    + reflexivity.
    + apply Nat.ltb_lt. reflexivity.
  - apply (proj2 (compute_metric_decision_rule (N := sample_numerics) unfitted_object
                    (Num (3 # 2)) (Num (97 # 100)) (Num (1 # 10)) (Num (7 # 10)))).
    reflexivity.
Defined.


(** ** The dilated buffer *)

Lemma at2_dilate_once img mask r c :
  at2 img r c = true -> at2 (dilate_once img mask) r c = true.
Proof.
  unfold at2, dilate_once. destruct ((r <? 0) || (c <? 0)); [discriminate|].
  rewrite list_lookup_imap. destruct (img !! Z.to_nat r) as [row|]; [|discriminate].
  simpl. rewrite list_lookup_imap. destruct (row !! Z.to_nat c) as [v|]; [|discriminate].
  simpl. intros ->. now destruct (at2 mask _ _).
Qed.

(** The dilation keeps every pixel of the image it starts from: the buffer
    of a component contains the component. *)
Lemma binary_dilation_extensive img iterations mask r c :
  at2 img r c = true -> at2 (binary_dilation img iterations mask) r c = true.
Proof.
  unfold binary_dilation. generalize (Z.to_nat iterations). intros n. revert img.
  induction n as [|n IH]; intros img Himg; simpl; [exact Himg|].
  apply IH. now apply at2_dilate_once.
Qed.

Lemma dl_mask_buffer_contains_component args files r c :
  at2 (dl_watermask args files) r c = true ->
  at2 (dl_mask_buffer args files) r c = true.
Proof. apply binary_dilation_extensive. Qed.

(** ** The water portion of a gap *)

Lemma valid_of_bool l :
  valid (of_bool <$> l) = (fun b : bool => if b then 1%Q else 0%Q) <$> l.
Proof.
  induction l as [|b l IH]; [reflexivity|].
  rewrite !fmap_cons. unfold valid in *. cbn [omap list_omap]. rewrite IH.
  now destruct b.
Qed.

Lemma bw_landcover_portion_not_nan args files :
  isnan (bw_landcover_portion args files) = false.
Proof.
  unfold bw_landcover_portion.
  destruct (select _ _) as [|b l]; [reflexivity|].
  cbn [length]. replace (0 <? S (length l))%nat with true by reflexivity.
  unfold nanmean_bool, nanmean. rewrite valid_of_bool. reflexivity.
Qed.

Section SmallSample.
Context {N : Numerics}.

(** With at most four samples the fallback rule decides, whether the fit
    succeeded or not. *)
Lemma compute_metric_small_sample self flags thresholds bm_thr :
  (length (int_db self) <= 4)%nat ->
  thresholds !! 3%nat = Some bm_thr ->
  compute_metric self flags thresholds
  = Ok (fgt (estimate_bimodality (int_db self)).1 bm_thr
        && fgt (estimate_bimodality (int_db self)).2 (Num (3 # 2))).
Proof.
  intros Hlen Hthr. unfold compute_metric.
  replace (4 <? length (int_db self))%nat with false
    by (symmetry; apply Nat.ltb_ge; exact Hlen).
  rewrite andb_false_r. destruct (estimate_bimodality (int_db self)) as [bt ad].
  unfold getitem. now rewrite Hthr.
Qed.

End SmallSample.

(** ** The exception monad *)

Lemma bind_Ok {A B} (m : result A) (f : A -> result B) b :
  m ≫= f = Ok b -> exists a, m = Ok a /\ f a = Ok b.
Proof. destruct m as [a|e]; [|discriminate]. intros Hf. now exists a. Qed.

Lemma mapM_Ok {A B} (f : A -> result B) l k :
  mapM f l = Ok k -> Forall2 (fun x y => f x = Ok y) l k.
Proof.
  revert k. induction l as [|x l IH]; intros k; simpl.
  - intros [= <-]. constructor.
  - intros (y & Hy & Hk)%bind_Ok. apply bind_Ok in Hk as (k' & Hk' & [= <-]).
    constructor; auto.
Qed.

Lemma setitem_Ok {A} (l : list A) i v l' :
  setitem l i v = Ok l' -> (i < length l)%nat /\ l' = <[i := v]> l.
Proof. unfold setitem. case_decide; [|discriminate]. now intros [= <-]. Qed.

Lemma setitem_lt {A} (l : list A) i v :
  (i < length l)%nat -> setitem l i v = Ok (<[i := v]> l).
Proof. intros Hi. unfold setitem. now case_decide. Qed.

Lemma setitem_ge {A} (l : list A) i v :
  ~ (i < length l)%nat -> setitem l i v = Raise IndexError.
Proof. intros Hi. unfold setitem. now case_decide. Qed.

(** The loop over the results does not depend on their order as long as two
    results that are assigned commute. *)
Lemma foldlM_permutation {A B} (f : B -> A -> result B) (R : A -> A -> Prop) :
  (forall b x y, R x y -> (b' ← f b x; f b' y) = (b' ← f b y; f b' x)) ->
  forall l l', l ≡ₚ l' -> ForallOrdPairs (fun x y => R x y /\ R y x) l ->
  forall b, foldlM f b l = foldlM f b l'.
Proof.
  intros Hcomm l l' Hperm. induction Hperm as [|x l l' _ IH|x y l|l l' l'' Hp1 IH1 Hp2 IH2];
    intros Hpairs b.
  - reflexivity.
  - simpl. inversion Hpairs; subst. destruct (f b x); simpl; auto.
  - simpl. inversion Hpairs as [|? ? Hy Hrest]; subst.
    inversion Hy as [|? ? [_ Hxy] _]; subst.
    specialize (Hcomm b x y Hxy).
    destruct (f b y) as [b1|e1], (f b x) as [b2|e2]; simpl in *.
    + destruct (f b1 x), (f b2 y); simpl in *; congruence.
    + destruct (f b1 x); simpl in *; congruence.
    + destruct (f b2 y); simpl in *; congruence.
    + congruence.
  - rewrite IH1 by assumption. apply IH2.
    clear -Hp1 Hpairs. induction Hp1.
    + constructor.
    + inversion Hpairs; subst. constructor; [|auto].
      now rewrite <- Hp1.
    + inversion Hpairs as [|? ? Hy Hrest]; subst.
      inversion Hy; subst. inversion Hrest; subst.
      constructor; [constructor; [tauto|assumption]|constructor; assumption].
    + auto.
Qed.

Lemma NoDup_ForallOrdPairs {A B} (g : A -> B) (l : list A) :
  NoDup (g <$> l) -> ForallOrdPairs (fun x y => g x ≠ g y /\ g y ≠ g x) l.
Proof.
  induction l as [|x l IH]; simpl; intros Hnd; [constructor|].
  apply NoDup_cons in Hnd as [Hx Hnd]. constructor; [|auto].
  apply Forall_forall. intros y Hy.
  assert (g x ≠ g y).
  { intros Heq. apply Hx. rewrite Heq. now apply list_elem_of_fmap_2. }
  split; congruence.
Qed.

#[local] Arguments setitem : simpl never.

Lemma setitem_decide {A} (l : list A) i v :
  setitem l i v
  = if bool_decide (i < length l)%nat then Ok (<[i := v]> l) else Raise IndexError.
Proof. unfold setitem. case_decide; case_bool_decide; tauto || reflexivity. Qed.

Lemma assign_dark_land_guarded debug_mode a r :
  assign_dark_land debug_mode a r
  = if dl_in_range debug_mode a (dl_index r)
    then Ok (dl_update debug_mode a r) else Raise IndexError.
Proof.
  destruct r as [[[i b] p] m]. unfold assign_dark_land, dl_in_range, dl_update, dl_index.
  simpl. rewrite !setitem_decide.
  destruct (bool_decide (i < length (bimodality_output a))%nat); simpl; [|reflexivity].
  destruct (bool_decide (i < length (check_output a))%nat); simpl; [|reflexivity].
  destruct debug_mode; simpl; [|reflexivity].
  destruct (bool_decide (i < length (ref_land_portion_output a))%nat); simpl; [|reflexivity].
  destruct (bool_decide (i < length (metric_output a))%nat); reflexivity.
Qed.

Lemma dl_in_range_update debug_mode a r i :
  dl_in_range debug_mode (dl_update debug_mode a r) i = dl_in_range debug_mode a i.
Proof.
  destruct r as [[[j b] p] m]. unfold dl_in_range, dl_update. simpl.
  destruct debug_mode; simpl; now rewrite !length_insert.
Qed.

Lemma dl_update_comm debug_mode a r1 r2 :
  dl_index r1 ≠ dl_index r2 ->
  dl_update debug_mode (dl_update debug_mode a r1) r2
  = dl_update debug_mode (dl_update debug_mode a r2) r1.
Proof.
  destruct r1 as [[[i b] p] m], r2 as [[[j c] q] n]. unfold dl_index, dl_update. simpl.
  intros Hne. f_equal; try destruct debug_mode; auto using list_insert_insert_ne.
Qed.

Lemma assign_dark_land_comm debug_mode a r1 r2 :
  dl_index r1 ≠ dl_index r2 ->
  (a' ← assign_dark_land debug_mode a r1; assign_dark_land debug_mode a' r2)
  = (a' ← assign_dark_land debug_mode a r2; assign_dark_land debug_mode a' r1).
Proof.
  intros Hne. rewrite !assign_dark_land_guarded.
  destruct (dl_in_range debug_mode a (dl_index r1)) eqn:H1,
           (dl_in_range debug_mode a (dl_index r2)) eqn:H2; cbn [mbind result_bind];
    rewrite ?assign_dark_land_guarded, ?dl_in_range_update, ?H1, ?H2;
    try reflexivity.
  now rewrite dl_update_comm.
Qed.

Lemma assign_bright_water_guarded threshold a r :
  assign_bright_water threshold a r
  = if bw_in_range threshold a (bw_index r)
    then Ok (bw_update threshold a r) else Raise IndexError.
Proof.
  destruct r as [[bt ad] i], a as [bo co].
  unfold assign_bright_water, bimodality_bright_water, bw_in_range, bw_update, bw_index.
  simpl. destruct threshold as [|t0 [|t1 rest]]; try reflexivity. simpl.
  rewrite !setitem_decide.
  destruct (bool_decide (i < length bo)%nat); simpl; [|reflexivity].
  destruct (bool_decide (i < length co)%nat); reflexivity.
Qed.

Lemma bw_in_range_update threshold a r i :
  bw_in_range threshold (bw_update threshold a r) i = bw_in_range threshold a i.
Proof. unfold bw_in_range, bw_update. simpl. now rewrite !length_insert. Qed.

Lemma bw_update_comm threshold a r1 r2 :
  bw_index r1 ≠ bw_index r2 ->
  bw_update threshold (bw_update threshold a r1) r2
  = bw_update threshold (bw_update threshold a r2) r1.
Proof.
  intros Hne. unfold bw_update. simpl. f_equal; auto using list_insert_insert_ne.
Qed.

Lemma assign_bright_water_comm threshold a r1 r2 :
  bw_index r1 ≠ bw_index r2 ->
  (a' ← assign_bright_water threshold a r1; assign_bright_water threshold a' r2)
  = (a' ← assign_bright_water threshold a r2; assign_bright_water threshold a' r1).
Proof.
  intros Hne. rewrite !assign_bright_water_guarded.
  destruct (bw_in_range threshold a (bw_index r1)) eqn:H1,
           (bw_in_range threshold a (bw_index r2)) eqn:H2; cbn [mbind result_bind];
    rewrite ?assign_bright_water_guarded, ?bw_in_range_update, ?H1, ?H2;
    try reflexivity.
  now rewrite bw_update_comm.
Qed.

(** The keys of [component_data] are component indices in increasing order. *)
Lemma component_keys_sublist (g : nat -> stat_row -> option (nat * Z * bounds_t)) l k0 :
  (forall i st c, g i st = Some c -> component_key c = (k0 + i)%nat) ->
  (component_key <$> omap id (imap g l)) `sublist_of` seq k0 (length l).
Proof.
  revert g k0. induction l as [|st l IH]; intros g k0 Hg; simpl; [constructor|].
  assert (Htail : (component_key <$> omap id (imap (g ∘ S) l))
                    `sublist_of` seq (S k0) (length l)).
  { apply IH. intros i st' c Hc. simpl in Hc. rewrite (Hg _ _ _ Hc). lia. }
  destruct (g 0%nat st) as [c|] eqn:Hc; simpl.
  - rewrite (Hg _ _ _ Hc), Nat.add_0_r. now constructor.
  - now constructor.
Qed.

Lemma dark_land_component_key bp rows cols minimum_pixel i st c :
  dark_land_component bp rows cols minimum_pixel i st = Some c -> component_key c = i.
Proof.
  unfold dark_land_component. destruct st as [[[[x y] w] h] size].
  case_match; [|discriminate]. now intros [= <-].
Qed.

Lemma bright_water_component_key bp rows cols i st c :
  bright_water_component bp rows cols i st = Some c -> component_key c = i.
Proof.
  unfold bright_water_component. destruct st as [[[[x y] w] h] size].
  case_match; [|discriminate]. now intros [= <-].
Qed.

Lemma dark_land_component_data_NoDup bp rows cols minimum_pixel stats_water :
  NoDup (component_key <$>
           dark_land_component_data bp rows cols minimum_pixel stats_water).
Proof.
  eapply sublist_NoDup; [apply (NoDup_seq 0)|].
  apply component_keys_sublist. intros i st c Hc.
  now rewrite (dark_land_component_key _ _ _ _ _ _ _ Hc).
Qed.

Lemma bright_water_component_data_NoDup bp rows cols stats_water :
  NoDup (component_key <$> bright_water_component_data bp rows cols stats_water).
Proof.
  eapply sublist_NoDup; [apply (NoDup_seq 0)|].
  apply component_keys_sublist. intros i st c Hc.
  now rewrite (bright_water_component_key _ _ _ _ _ _ Hc).
Qed.

Section PoolProperties.
Context {N : Numerics}.

(** A worker returns the index it was given. *)
Lemma process_dark_land_component_index args files r :
  process_dark_land_component args files = Ok r -> dl_index r = dl_i args.
Proof.
  unfold process_dark_land_component.
  destruct (_ && _); [|now intros [= <-]].
  destruct (fgt _ _); [|now intros [= <-]].
  destruct (getitem _ _) as [single_band|]; simpl; [|discriminate].
  destruct (fgt _ _); [now intros [= <-]|].
  destruct (_ <? _)%nat; [|now intros [= <-]].
  destruct (BimodalityMetrics_init _ _) as [obj|]; simpl; [|discriminate].
  destruct (compute_metric _ _ _); simpl; [|discriminate].
  now intros [= <-].
Qed.

Lemma process_bright_water_component_index args files r :
  process_bright_water_component args files = Ok r -> bw_index r = bw_ind args.
Proof.
  unfold process_bright_water_component.
  destruct (bw_bands args files); simpl; [|discriminate].
  destruct (getitem (bw_threshold args) 1); simpl; [|discriminate].
  destruct (getitem (bw_threshold args) 0); simpl; [|discriminate].
  repeat case_match; intros [= <-]; reflexivity.
Qed.

Lemma dark_land_pool_indices cfg files pol_ind component_data results :
  dark_land_pool cfg files pol_ind component_data = Ok results ->
  dl_index <$> results = component_key <$> component_data.
Proof.
  unfold dark_land_pool, dark_land_args_list. intros Hpool%mapM_Ok.
  revert results Hpool. induction component_data as [|[[ind size] bounds] cd IH];
    intros results Hpool; inversion Hpool; subst; simpl; [reflexivity|].
  f_equal; [|auto].
  match goal with Hr : process_dark_land_component _ _ = Ok _ |- _ =>
    now rewrite (process_dark_land_component_index _ _ _ Hr) end.
Qed.

Lemma bright_water_pool_indices cfg files pol_ind component_data results :
  bright_water_pool files (bright_water_args_list cfg pol_ind component_data) = Ok results ->
  bw_index <$> results = component_key <$> component_data.
Proof.
  unfold bright_water_pool, bright_water_args_list. intros Hpool%mapM_Ok.
  revert results Hpool. induction component_data as [|[[ind size] bounds] cd IH];
    intros results Hpool; inversion Hpool; subst; simpl; [reflexivity|].
  f_equal; [|auto].
  match goal with Hr : process_bright_water_component _ _ = Ok _ |- _ =>
    now rewrite (process_bright_water_component_index _ _ _ Hr) end.
Qed.

(** C9.  The aggregation of the results of the pool does not depend on
    their order: for every permutation of the results the pool returned,
    the scattered bimodality image and check image are the same, in the
    dark-land driver and in the bright-water driver. *)
Theorem scatter_order_independent :
  (forall cfg files pol_ind bp stats_water nb output_water results results',
     dark_land_pool cfg files pol_ind
       (dark_land_component_data bp (rf_rows cfg) (rf_cols cfg)
                                 (rf_minimum_pixel cfg) stats_water) = Ok results ->
     results' ≡ₚ results ->
     dark_land_scatter (rf_debug_mode cfg) nb output_water results'
     = dark_land_scatter (rf_debug_mode cfg) nb output_water results)
  /\ (forall cfg files pol_ind bp stats_water nb output_water a results results',
        bright_water_pool files
          (bright_water_args_list cfg pol_ind
             (bright_water_component_data bp (fg_rows cfg) (fg_cols cfg) stats_water))
        = Ok results ->
        results' ≡ₚ results ->
        bright_water_scatter (fg_threshold cfg) nb output_water a results'
        = bright_water_scatter (fg_threshold cfg) nb output_water a results).
Proof.
  split.
  - intros cfg files pol_ind bp stats_water nb output_water results results' Hpool Hperm.
    unfold dark_land_scatter.
    rewrite (foldlM_permutation _ (fun x y => dl_index x ≠ dl_index y)
               (assign_dark_land_comm (rf_debug_mode cfg)) results' results Hperm);
      [reflexivity|].
    apply (NoDup_ForallOrdPairs dl_index). rewrite Hperm.
    rewrite (dark_land_pool_indices _ _ _ _ _ Hpool).
    apply dark_land_component_data_NoDup.
  - intros cfg files pol_ind bp stats_water nb output_water a results results' Hpool Hperm.
    unfold bright_water_scatter.
    rewrite (foldlM_permutation _ (fun x y => bw_index x ≠ bw_index y)
               (assign_bright_water_comm (fg_threshold cfg)) results' results Hperm);
      [reflexivity|].
    apply (NoDup_ForallOrdPairs bw_index). rewrite Hperm.
    rewrite (bright_water_pool_indices _ _ _ _ _ Hpool).
    apply bright_water_component_data_NoDup.
Qed.

End PoolProperties.

(** ** The components sent to the pool *)

Lemma component_data_entries (g : nat -> stat_row -> option (nat * Z * bounds_t)) l c :
  c ∈ omap id (imap g l) -> exists i st, l !! i = Some st /\ g i st = Some c.
Proof.
  intros (o & Ho & Hc)%list_elem_of_omap. simpl in Hc. subst o.
  apply elem_of_lookup_imap_1 in Ho as (i & st & Hg & Hst). eauto.
Qed.

(** ** The arrays after the loop over the results *)

Lemma foldlM_assign_dark_land_untouched debug_mode results a a' ind :
  foldlM (assign_dark_land debug_mode) a results = Ok a' ->
  ind ∉ dl_index <$> results ->
  bimodality_output a' !! ind = bimodality_output a !! ind
  /\ check_output a' !! ind = check_output a !! ind.
Proof.
  revert a. induction results as [|r results IH]; intros a; simpl.
  - now intros [= <-].
  - intros (a1 & Ha1 & Hrest)%bind_Ok Hnotin.
    apply not_elem_of_cons in Hnotin as [Hne Hnotin].
    destruct (IH _ Hrest Hnotin) as [-> ->].
    rewrite assign_dark_land_guarded in Ha1.
    destruct (dl_in_range _ _ _); [|discriminate]. injection Ha1 as <-.
    destruct r as [[[i b] p] m]. unfold dl_index in Hne. simpl in *.
    now rewrite !list_lookup_insert_ne by congruence.
Qed.

(** ** The scatter through the labels *)

Lemma searchsorted_old_val_aux n s v :
  (s <= v + 1)%nat ->
  searchsorted ((fun k => inject_Z (Z.of_nat k) - (1 # 10))%Q <$> seq s n) (Z.of_nat v)
  = Nat.min n (v + 1 - s).
Proof.
  revert s. induction n as [|n IH]; intros s Hs; [reflexivity|].
  cbn [seq]. rewrite fmap_cons. cbn [searchsorted].
  destruct (Qle_bool _ _) eqn:Hle.
  - apply Qle_bool_iff in Hle.
    assert (Hlt : (inject_Z (Z.of_nat v) < inject_Z (Z.of_nat s))%Q) by lra.
    rewrite <- Zlt_Qlt in Hlt. lia.
  - assert (Hge : (s <= v)%nat).
    { destruct (Nat.le_gt_cases s v) as [|Hgt]; [assumption|].
      assert (Hq : (inject_Z (Z.of_nat v) <= inject_Z (Z.of_nat s) - (1 # 10))%Q).
      { assert (s = S v) by lia. subst s.
        rewrite Nat2Z.inj_succ. unfold Z.succ. rewrite inject_Z_plus.
        change (inject_Z 1) with 1%Q. lra. }
      apply Qle_bool_iff in Hq. congruence. }
    rewrite IH by lia. lia.
Qed.

Lemma searchsorted_label nb ind :
  (ind < nb)%nat -> searchsorted (old_val nb) (label_of ind) = S ind.
Proof.
  intros Hind. unfold old_val, label_of.
  replace (Z.of_nat ind + 1) with (Z.of_nat (S ind)) by lia.
  rewrite searchsorted_old_val_aux by lia. lia.
Qed.

Lemma take_image_pixel {A} (values : list A) index image r c k :
  take_image values index = Ok image ->
  pixel index r c = Some k ->
  exists v, values !! k = Some v /\ pixel image r c = Some v.
Proof.
  unfold take_image, pixel. intros Himg%mapM_Ok Hk.
  destruct (index !! r) as [irow|] eqn:Hr; [|discriminate]. simpl in Hk.
  destruct (Forall2_lookup_l _ _ _ _ _ Himg Hr) as (row & Hrow & Hrows).
  apply mapM_Ok in Hrows.
  destruct (Forall2_lookup_l _ _ _ _ _ Hrows Hk) as (v & Hv & Hget).
  unfold getitem in Hget. destruct (values !! k) as [v'|] eqn:Hv'; [|discriminate].
  injection Hget as ->. exists v. split; [reflexivity|]. rewrite Hrow. exact Hv.
Qed.

Lemma pixel_map2d {A B} (f : A -> B) img r c :
  pixel (map2d f img) r c = f <$> pixel img r c.
Proof.
  unfold pixel, map2d. rewrite list_lookup_fmap.
  destruct (img !! r) as [row|]; simpl; [|reflexivity]. apply list_lookup_fmap.
Qed.

Lemma pixel_zip2d {A B C} (f : A -> B -> C) a b r c x y :
  pixel a r c = Some x -> pixel b r c = Some y ->
  pixel (zip2d f a b) r c = Some (f x y).
Proof.
  unfold pixel, zip2d. intros Ha Hb. rewrite lookup_zip_with.
  destruct (a !! r) as [ra|]; [|discriminate].
  destruct (b !! r) as [rb|]; [|discriminate]. simpl in *.
  rewrite lookup_zip_with, Ha, Hb. reflexivity.
Qed.

(** A deferred component keeps its flag and gets no verdict. *)
Lemma dark_land_scatter_untouched debug_mode nb output_water results
    bimodality_image check_image ind r c :
  dark_land_scatter debug_mode nb output_water results
  = Ok (bimodality_image, check_image) ->
  (ind < nb)%nat ->
  ind ∉ dl_index <$> results ->
  pixel output_water r c = Some (label_of ind) ->
  pixel check_image r c = Some 1 /\ pixel bimodality_image r c = Some 0.
Proof.
  unfold dark_land_scatter.
  intros (a & Ha & Hrest)%bind_Ok Hind Hnotin Hlabel.
  apply bind_Ok in Hrest as (bim & Hbim & Hrest).
  apply bind_Ok in Hrest as (chk & Hchk & [= <- <-]).
  destruct (foldlM_assign_dark_land_untouched _ _ _ _ _ Ha Hnotin) as [Hbo Hco].
  simpl in Hbo, Hco. rewrite lookup_replicate_2 in Hbo, Hco by assumption.
  assert (Hidx : pixel (map2d (searchsorted (old_val nb)) output_water) r c
                 = Some (S ind)).
  { rewrite pixel_map2d, Hlabel. simpl. now rewrite searchsorted_label. }
  destruct (take_image_pixel _ _ _ _ _ _ Hchk Hidx) as (v & Hv & ->).
  destruct (take_image_pixel _ _ _ _ _ _ Hbim Hidx) as (v' & Hv' & ->).
  simpl in Hv, Hv'. split; congruence.
Qed.

Lemma sum_images_zero images r c :
  images ≠ [] ->
  Forall (fun im => pixel im r c = Some 0) images ->
  pixel (sum_images images) r c = Some 0.
Proof.
  destruct images as [|im ims]; [congruence|]. intros _ Hall.
  apply Forall_cons in Hall as [Him Hims]. simpl.
  revert im Him. induction Hims as [|x ims Hx _ IH]; intros im Him; simpl; [exact Him|].
  apply IH. now rewrite (pixel_zip2d Z.add im x r c 0 0).
Qed.

Lemma mask_background_zero output_water image r c l :
  pixel output_water r c = Some l ->
  pixel image r c = Some 0 ->
  pixel (mask_background output_water image) r c = Some 0.
Proof.
  intros Hl Him. unfold mask_background.
  rewrite (pixel_zip2d _ output_water image r c l 0) by assumption.
  now destruct (l =? 0).
Qed.

Section BlockProperties.
Context {N : Numerics} {S : BlockRasterStore}.

Lemma remove_false_water_pols_skipped cfg files cc component_data pols st :
  Forall (fun p : nat * string => is_copol_or_crosspol p.2 = false) pols ->
  foldlM (remove_false_water_pol cfg files cc component_data) st pols = Ok st.
Proof.
  induction 1 as [|[pol_ind pol] pols Hp _ IH]; simpl; [reflexivity|].
  simpl in Hp. now rewrite Hp.
Qed.

Lemma enumerate_skipped (pols : list string) :
  existsb is_copol_or_crosspol pols = false ->
  Forall (fun p : nat * string => is_copol_or_crosspol p.2 = false) (enumerate pols).
Proof.
  intros Hnone. apply Forall_forall. intros [i pol] Hin.
  apply elem_of_lookup_imap_1 in Hin as (j & pol' & [= -> ->] & Hpol). simpl.
  apply not_true_iff_false. intros Hvalid.
  assert (existsb is_copol_or_crosspol pols = true); [|congruence].
  apply existsb_exists. exists pol'. split; [|assumption].
  apply list_elem_of_In. eapply list_elem_of_lookup_2. eassumption.
Qed.

End BlockProperties.

Lemma scatter_order_independent_witness :
  dark_land_scatter false 3 sample_labels (reverse sample_dark_land_results)
  = dark_land_scatter false 3 sample_labels sample_dark_land_results
  /\ bright_water_scatter (fg_threshold sample_fill_gap_config) 3 sample_labels
       (replicate 3 0, replicate 3 1) (reverse sample_bright_water_results)
     = bright_water_scatter (fg_threshold sample_fill_gap_config) 3 sample_labels
         (replicate 3 0, replicate 3 1) sample_bright_water_results.
Proof.
  split.
  - apply (proj1 (scatter_order_independent (N := sample_numerics))
             sample_config sample_files 0%nat sample_block (cc_stats sample_cc)).
    + reflexivity.
    + apply perm_swap.
  - apply (proj2 (scatter_order_independent (N := sample_numerics))
             sample_fill_gap_config sample_files 0%nat sample_block (cc_stats sample_cc)).
    + reflexivity.
    + apply perm_swap.
Defined.

(** ** The threshold and the modes of the constructor *)

Lemma np_where_from_first {A} (p : A -> bool) pre m post k :
  Forall (fun x => p x = false) pre -> p m = true ->
  exists rest, np_where_from k (p <$> (pre ++ m :: post)) = (k + length pre)%nat :: rest.
Proof.
  intros Hpre Hm. revert k. induction Hpre as [|x pre Hx _ IH]; intros k.
  - rewrite app_nil_l, fmap_cons. cbn [np_where_from]. rewrite Hm.
    cbn [length]. rewrite Nat.add_0_r. eauto.
  - rewrite <- app_comm_cons, fmap_cons. cbn [np_where_from]. rewrite Hx.
    destruct (IH (S k)) as [rest Hrest]. exists rest.
    rewrite Hrest. f_equal. cbn [length]. lia.
Qed.

Lemma np_where_from_bounds cond : forall k i,
  i ∈ np_where_from k cond -> (k <= i < k + length cond)%nat.
Proof.
  induction cond as [|b cond IH]; intros k i Hi; simpl in *.
  - inversion Hi.
  - destruct b.
    + apply elem_of_cons in Hi as [->|Hi]; [lia|]. apply IH in Hi. lia.
    + apply IH in Hi. lia.
Qed.

Lemma np_where_from_nil {A} (p : A -> bool) l : forall k,
  np_where_from k (p <$> l) = [] -> Forall (fun m => p m = false) l.
Proof.
  induction l as [|x l IH]; intros k H; [constructor|].
  rewrite fmap_cons in H. cbn [np_where_from] in H.
  destruct (p x) eqn:Hx; [discriminate|].
  constructor; [exact Hx|]. eapply IH, H.
Qed.

Lemma Qltb_Qle_bool a b : Qltb a b = true -> Qle_bool a b = true.
Proof.
  unfold Qltb. intros H. apply negb_true_iff in H. apply Qle_bool_iff.
  destruct (Qlt_le_dec a b) as [Hlt|Hle]; [now apply Qlt_le_weak|].
  apply Qle_bool_iff in Hle. congruence.
Qed.

Lemma fgt_fge x y : fgt x y = true -> fge x y = true.
Proof.
  destruct x as [|a], y as [|b]; try discriminate. apply Qltb_Qle_bool.
Qed.

Lemma fgt_asym a b : fgt a b = true -> fgt b a = false.
Proof.
  destruct a as [|p], b as [|q]; try discriminate. cbn [fgt].
  intros H%Qltb_Qle_bool. unfold Qltb. now rewrite H.
Qed.

Section ThresholdProperties.
Context {N : Numerics}.

(** Below the window, the constructor takes the first multi-level
    threshold that lies strictly inside the window. *)
Theorem init_threshold_first_inside sample b0 b1 pre m post :
  flt (threshold_otsu sample) b0 = true ->
  threshold_multiotsu sample = pre ++ m :: post ->
  Forall (fun x => fgt x b0 && flt x b1 = false) pre ->
  fgt m b0 && flt m b1 = true ->
  init_threshold sample [b0; b1] = Ok m.
Proof.
  intros Hlow Hmulti Hpre Hm. unfold init_threshold. simpl. rewrite Hlow, Hmulti.
  assert (Hany : existsb (fun x => fge x b0) (pre ++ m :: post) = true).
  { apply existsb_exists. exists m. split; [apply in_or_app; right; now left|].
    apply andb_true_iff in Hm as [Hm _]. now apply fgt_fge. }
  rewrite Hany. unfold np_where.
  destruct (np_where_from_first (fun x => fgt x b0 && flt x b1) pre m post 0%nat Hpre Hm)
    as [rest ->].
  simpl. unfold getitem. rewrite lookup_app_r by lia.
  now rewrite Nat.sub_diag.
Qed.

(** When [threshold_otsu] returns [otsu] and [threshold_multiotsu] returns
    [multi], the selection of lines 76-86 among these values raises exactly
    when [otsu] is below the window, some value of [multi] is at or above
    the lower bound and none is strictly inside the window; the exception
    is IndexError. *)
Theorem init_threshold_raises_iff sample b0 b1 otsu multi e :
  threshold_otsu sample = otsu ->
  threshold_multiotsu sample = multi ->
  init_threshold sample [b0; b1] = Raise e <->
  e = IndexError /\ flt otsu b0 = true
  /\ Exists (fun m => fge m b0 = true) multi
  /\ Forall (fun m => fgt m b0 && flt m b1 = false) multi.
Proof.
  intros <- <-. split.
  - unfold init_threshold. simpl.
    destruct (flt (threshold_otsu sample) b0) eqn:Hlow; [|discriminate].
    destruct (existsb _ _) eqn:Hany; [|discriminate].
    unfold np_where.
    destruct (np_where_from 0 _) as [|k rest] eqn:Hwhere.
    + simpl. intros [= <-]. repeat split.
      * apply existsb_exists in Hany as [m [Hin Hm]]. apply Exists_exists.
        exists m. split; [now apply list_elem_of_In|exact Hm].
      * eapply np_where_from_nil, Hwhere.
    + simpl. assert (Hk : k ∈ np_where_from 0 ((fun m => fgt m b0 && flt m b1)
                               <$> threshold_multiotsu sample)).
      { rewrite Hwhere. left. }
      apply np_where_from_bounds in Hk. rewrite length_fmap in Hk.
      unfold getitem. destruct (threshold_multiotsu sample !! k) eqn:Hl; [discriminate|].
      apply lookup_ge_None in Hl. lia.
  - intros (-> & Hlow & Hex & Hall). now apply init_threshold_raises.
Qed.

(** After the constructor, two modes mean that the fit succeeded, and the
    first mode never has the greater mean. *)
Theorem init_orders_modes intensity bounds self first_mode second_mode :
  BimodalityMetrics_init intensity bounds = Ok self ->
  modes self = Some (first_mode, second_mode) ->
  optimization self = true /\ fgt first_mode.1.1 second_mode.1.1 = false.
Proof.
  unfold BimodalityMetrics_init. intros H Hmodes.
  apply bind_Ok in H as [thr [_ H]].
  destruct (curve_fit _ _) as [[p1 p2]|].
  - injection H as <-. simpl in *. destruct (fgt p1.1.1 p2.1.1) eqn:Hgt.
    + injection Hmodes as <- <-. split; [reflexivity|]. now apply fgt_asym.
    + injection Hmodes as <- <-. split; [reflexivity|exact Hgt].
  - injection H as <-. discriminate.
Qed.

End ThresholdProperties.

Lemma init_threshold_first_inside_witness :
  init_threshold (N := dark_cluster_numerics) [Num (-30); Num (-10)] default_bound
  = Ok (Num (-12)).
Proof.
  apply (init_threshold_first_inside (N := dark_cluster_numerics)
           [Num (-30); Num (-10)] (Num (-18)) (Num 0) [Num (-25)] (Num (-12)) [Num (-5)]).
  - reflexivity.
  - reflexivity.
  - repeat constructor.
  - reflexivity.
Defined.

Lemma init_threshold_raises_iff_witness :
  init_threshold (N := three_cluster_numerics) [Num (-30); Num 5] default_bound
  = Raise IndexError
  <-> IndexError = IndexError /\ flt (Num (-20)) (Num (-18)) = true
      /\ Exists (fun m => fge m (Num (-18)) = true) [Num (-25); Num 2]
      /\ Forall (fun m => fgt m (Num (-18)) && flt m (Num 0) = false) [Num (-25); Num 2].
Proof.
  exact (init_threshold_raises_iff (N := three_cluster_numerics) [Num (-30); Num 5]
           (Num (-18)) (Num 0) (Num (-20)) [Num (-25); Num 2] IndexError eq_refl eq_refl).
Defined.

Lemma init_threshold_retained_witness :
  init_threshold (N := very_dark_numerics) [Num (-30); Num (-21)] default_bound
  = Ok (Num (-20)).
Proof.
  apply (init_threshold_retained (N := very_dark_numerics)
           [Num (-30); Num (-21)] (Num (-18)) (Num 0)).
  - reflexivity.
  - repeat constructor.
Defined.

Lemma init_orders_modes_witness :
  exists self,
    BimodalityMetrics_init (N := dark_cluster_numerics) [Num (-30); Num (-10)] default_bound
    = Ok self
    /\ modes self
       = Some ((Num (-20), Num 1, Num (1 # 2)), (Num (-5), Num 1, Num (1 # 2)))
    /\ optimization self = true
    /\ fgt (Num (-20)) (Num (-5)) = false.
Proof.
  eexists. split; [reflexivity|]. split; [reflexivity|].
  exact (init_orders_modes (N := dark_cluster_numerics) [Num (-30); Num (-10)]
           default_bound _ _ _ eq_refl eq_refl).
Defined.

(** ** The flags and the thresholds of [compute_metric] *)

Section MetricFlags.
Context {N : Numerics}.

(** With [bm_flag] set, a threshold list of fewer than four entries makes
    [compute_metric] raise IndexError, on the fitted path and on the
    fallback path alike. *)
Theorem compute_metric_short_thresholds self flags thresholds :
  bm_flag flags = true ->
  (length thresholds < 4)%nat ->
  compute_metric self flags thresholds = Raise IndexError.
Proof.
  intros Hbm Hlen. unfold compute_metric.
  assert (Hget : getitem thresholds 3 = Raise IndexError).
  { unfold getitem. now rewrite lookup_ge_None_2 by lia. }
  destruct (optimization self && (4 <? length (int_db self))%nat).
  - destruct (get_metric self) as [[[[ashman bhc] surface_ratio] bm_coeff] bc_coeff].
    rewrite Hbm. cbn [py_and]. now rewrite Hget.
  - destruct (estimate_bimodality (int_db self)) as [bt_max ad_max]. now rewrite Hget.
Qed.

(** The Bhattacharyya coefficient has no part in the verdict: another
    coefficient, another threshold for it or another [bhc_flag] leave the
    result of [compute_metric] unchanged. *)
Theorem compute_metric_ignores_bhc self flags flag' f t0 t1 t1' t2 t3 rest :
  compute_metric (N := with_bhc N f) self (with_bhc_flag flag' flags)
    (t0 :: t1' :: t2 :: t3 :: rest)
  = compute_metric self flags (t0 :: t1 :: t2 :: t3 :: rest).
Proof.
  unfold compute_metric, get_metric. cbn [with_bhc_flag bm_flag ashman_flag bhc_flag
    surface_ratio_flag bc_flag with_bhc compute_ashman compute_bhc compute_surface_ratio
    compute_bimodality compute_bc_coefficient estimate_bimodality].
  destruct (optimization self && (4 <? length (int_db self))%nat) eqn:Hfit.
  - apply andb_true_iff in Hfit as [-> _].
    destruct (bm_flag flags), (ashman_flag flags), (bhc_flag flags), flag',
      (surface_ratio_flag flags); reflexivity.
  - reflexivity.
Qed.

(** On the fitted path, switching [surface_ratio_flag] off does not take the
    surface ratio out of the rule: the verdict is then always False. *)
Theorem compute_metric_without_surface_ratio self flags thresholds :
  optimization self = true ->
  (4 < length (int_db self))%nat ->
  (4 <= length thresholds)%nat ->
  surface_ratio_flag flags = false ->
  compute_metric self flags thresholds = Ok false.
Proof.
  intros Hopt Hlen Hthr Hflag. unfold compute_metric. rewrite Hopt.
  replace (4 <? length (int_db self))%nat with true
    by (symmetry; now apply Nat.ltb_lt).
  cbn [andb]. destruct (get_metric self) as [[[[ashman bhc] surface_ratio] bm_coeff] bc_coeff].
  destruct thresholds as [|t0 [|t1 [|t2 [|t3 rest]]]]; simpl in Hthr; try lia.
  rewrite Hflag.
  destruct (bm_flag flags), (ashman_flag flags), (bhc_flag flags); cbn;
    now rewrite andb_false_r.
Qed.

(** On the fitted path, an Ashman coefficient above 3 together with a
    surface ratio above its threshold gives True whatever the other flags
    are, [ashman_flag] included. *)
Theorem compute_metric_ashman_override self flags t0 t1 t2 t3 rest :
  optimization self = true ->
  (4 < length (int_db self))%nat ->
  surface_ratio_flag flags = true ->
  fgt (compute_ashman self) (Num 3) = true ->
  fgt (compute_surface_ratio self) t2 = true ->
  compute_metric self flags (t0 :: t1 :: t2 :: t3 :: rest) = Ok true.
Proof.
  intros Hopt Hlen Hflag Hashman Hsurf. unfold compute_metric, get_metric. rewrite Hopt.
  replace (4 <? length (int_db self))%nat with true
    by (symmetry; now apply Nat.ltb_lt).
  cbn [andb]. rewrite Hflag.
  destruct (bm_flag flags), (ashman_flag flags), (bhc_flag flags); cbn;
    rewrite Hashman, Hsurf, orb_true_r; reflexivity.
Qed.

End MetricFlags.

Lemma compute_metric_short_thresholds_witness :
  compute_metric (N := sample_numerics) fitted_object default_flags
    [Num (3 # 2); Num (97 # 100); Num (1 # 10)] = Raise IndexError.
Proof.
  apply (compute_metric_short_thresholds (N := sample_numerics)).
  - reflexivity.
  - simpl. lia.
Defined.

Lemma compute_metric_small_sample_witness :
  compute_metric (N := dark_cluster_numerics)
    {| intensity_array := replicate 4 (Num 1); int_db := replicate 4 (Num (-10));
       threshold_global_otsu := Num (-10); optimization := true;
       modes := Some ((Num (-20), Num 1, Num (1 # 2)), (Num (-5), Num 1, Num (1 # 2))) |}
    default_flags default_thresholds
  = Ok (fgt (Num 1) (Num (7 # 10)) && fgt (Num 2) (Num (3 # 2))).
Proof.
  apply (compute_metric_small_sample (N := dark_cluster_numerics)).
  - simpl. lia.
  - reflexivity.
Defined.

Lemma compute_metric_without_surface_ratio_witness :
  compute_metric (N := dark_cluster_numerics) fitted_object
    {| ashman_flag := true; bhc_flag := true; bm_flag := true;
       surface_ratio_flag := false; bc_flag := true |} default_thresholds
  = Ok false.
Proof.
  apply (compute_metric_without_surface_ratio (N := dark_cluster_numerics)).
  - reflexivity.
  - simpl. lia.
  - simpl. lia.
  - reflexivity.
Defined.

Lemma compute_metric_ashman_override_witness :
  compute_metric (N := dark_cluster_numerics) fitted_object
    {| ashman_flag := false; bhc_flag := false; bm_flag := false;
       surface_ratio_flag := true; bc_flag := false |} default_thresholds
  = Ok true.
Proof.
  apply (compute_metric_ashman_override (N := dark_cluster_numerics)).
  - reflexivity.
  - simpl. lia.
  - reflexivity.
  - reflexivity.
  - reflexivity.
Defined.

(** ** The samples of the dark-land classifier *)

Lemma at2_pixel img r c :
  at2 img (Z.of_nat r) (Z.of_nat c) = default false (pixel img r c).
Proof.
  unfold at2, pixel.
  replace (Z.of_nat r <? 0) with false by (symmetry; apply Z.ltb_ge; lia).
  replace (Z.of_nat c <? 0) with false by (symmetry; apply Z.ltb_ge; lia).
  rewrite !Nat2Z.id. cbn [orb]. now destruct (img !! r).
Qed.

Lemma select_row_elem {A} (m : list bool) (a : list A) c v :
  m !! c = Some true -> a !! c = Some v -> v ∈ select_row m a.
Proof.
  revert a c. induction m as [|b m IH]; intros [|x a] [|c] Hm Ha; try discriminate.
  - injection Hm as ->. injection Ha as ->. cbn [select_row]. left.
  - cbn [select_row]. destruct b; [right|]; eapply IH; eassumption.
Qed.

Lemma select_elem {A} (m : array2 bool) (a : array2 A) r c v :
  pixel m r c = Some true -> pixel a r c = Some v -> v ∈ select m a.
Proof.
  unfold pixel, select. intros Hm Ha.
  destruct (m !! r) as [mrow|] eqn:Hmr; [|discriminate].
  destruct (a !! r) as [arow|] eqn:Har; [|discriminate]. cbn in Hm, Ha.
  apply list_elem_of_In, in_concat. exists (select_row mrow arow). split.
  - apply list_elem_of_In, (list_elem_of_lookup_2 _ r).
    now rewrite lookup_zip_with, Hmr, Har.
  - apply list_elem_of_In. eapply select_row_elem; eassumption.
Qed.

Lemma pixel_dilate_once img mask r c :
  pixel (dilate_once img mask) r c
  = (fun v => if at2 mask (Z.of_nat r) (Z.of_nat c)
              then v || at2 img (Z.of_nat r - 1) (Z.of_nat c)
                     || at2 img (Z.of_nat r + 1) (Z.of_nat c)
                     || at2 img (Z.of_nat r) (Z.of_nat c - 1)
                     || at2 img (Z.of_nat r) (Z.of_nat c + 1)
              else v) <$> pixel img r c.
Proof.
  unfold pixel, dilate_once. rewrite list_lookup_imap.
  destruct (img !! r) as [row|]; [|reflexivity]. cbn.
  rewrite list_lookup_imap. now destruct (row !! c).
Qed.

Lemma pixel_binary_dilation_outside_mask img iterations mask r c :
  at2 mask (Z.of_nat r) (Z.of_nat c) = false ->
  pixel (binary_dilation img iterations mask) r c = pixel img r c.
Proof.
  intros Hmask. unfold binary_dilation. generalize (Z.to_nat iterations). intros n.
  revert img. induction n as [|n IH]; intros img; [reflexivity|].
  cbn [dilate_iter]. rewrite IH, pixel_dilate_once, Hmask.
  now destruct (pixel img r c).
Qed.

Lemma pixel_binary_dilation_extensive img iterations mask r c :
  pixel img r c = Some true ->
  pixel (binary_dilation img iterations mask) r c = Some true.
Proof.
  unfold binary_dilation. generalize (Z.to_nat iterations). intros n.
  revert img. induction n as [|n IH]; intros img Himg; [exact Himg|].
  cbn [dilate_iter]. apply IH. rewrite pixel_dilate_once, Himg. cbn.
  now destruct (at2 mask _ _).
Qed.

Lemma pixel_zip2d_Some {A B C} (f : A -> B -> C) a b r c z :
  pixel (zip2d f a b) r c = Some z ->
  exists x y, pixel a r c = Some x /\ pixel b r c = Some y /\ z = f x y.
Proof.
  unfold pixel, zip2d. rewrite lookup_zip_with.
  destruct (a !! r) as [ra|]; [|discriminate].
  destruct (b !! r) as [rb|]; [|discriminate]. cbn.
  rewrite lookup_zip_with.
  destruct (ra !! c) as [x|]; [|discriminate].
  destruct (rb !! c) as [y|]; [|discriminate]. cbn.
  intros [= <-]. eauto.
Qed.

(** The sample of the bimodality test holds the intensity of every pixel of
    the component itself that is a number other than 0. *)
Theorem dark_land_sample_holds_component args files single_band r c v :
  pixel (dl_water_label args files) r c = Some (label_of (dl_i args)) ->
  pixel single_band r c = Some v ->
  nonzero_number v = true ->
  v ∈ dl_intensity_array args files single_band.
Proof.
  intros Hlabel Hv Hnz. unfold dl_intensity_array.
  apply list_elem_of_In, filter_In. split; [|exact Hnz].
  apply list_elem_of_In. eapply select_elem; [|exact Hv].
  apply pixel_binary_dilation_extensive. unfold dl_watermask.
  rewrite pixel_map2d, Hlabel. cbn. now rewrite Z.eqb_refl.
Qed.

(** The buffer never grows into a pixel that carries the label of another
    component. *)
Theorem dark_land_buffer_skips_labelled args files r c l :
  pixel (dl_water_label args files) r c = Some l ->
  l <> 0 -> l <> label_of (dl_i args) ->
  pixel (dl_mask_buffer args files) r c = Some false.
Proof.
  intros Hlabel Hzero Hother. unfold dl_mask_buffer.
  rewrite pixel_binary_dilation_outside_mask.
  - unfold dl_watermask. rewrite pixel_map2d, Hlabel. cbn.
    now replace (l =? label_of (dl_i args)) with false by (symmetry; now apply Z.eqb_neq).
  - rewrite at2_pixel. unfold dl_out_boundary.
    destruct (pixel (zip2d andb _ _) r c) as [z|] eqn:Hz; [|reflexivity].
    apply pixel_zip2d_Some in Hz as (x & y & _ & Hy & ->).
    rewrite pixel_map2d, Hlabel in Hy. injection Hy as <-. cbn.
    replace (l =? 0) with false by (symmetry; now apply Z.eqb_neq).
    apply andb_false_r.
Qed.

Lemma nanmedian_no_valid l : valid l = [] -> nanmedian l = NaN.
Proof. unfold nanmedian. now intros ->. Qed.

Lemma nanpercentile_no_valid l q : valid l = [] -> nanpercentile l q = NaN.
Proof. unfold nanpercentile. now intros ->. Qed.

Section WorkerProperties.
Context {N : Numerics}.

(** When the component or the ring around it holds no valid intensity, the
    brightness test cannot reject the component: the verdict is that of the
    bimodality test on the buffer. *)
Theorem dark_land_no_valid_ring args files single_band :
  dl_minimum_pixel args <= dl_sizes args ->
  fgt (dl_ref_land_portion args files) (Num (8 # 10)) = true ->
  getitem (dl_bands args files) (dl_pol_ind args) = Ok single_band ->
  valid (select (dl_adjacent_mask args files) single_band) = []
  \/ valid (select (dl_watermask args files) single_band) = [] ->
  dl_verdict <$> process_dark_land_component args files
  = if (length (dl_intensity_array args files single_band) <? 5)%nat
    then Ok false
    else
      metric_obj ← BimodalityMetrics_init
                     (dl_intensity_array args files single_band) default_bound;
      compute_metric metric_obj default_flags (dl_thresholds args).
Proof.
  intros Hsize Hland Hband Hvalid.
  assert (Hdark : fgt (dl_intensity_center args files single_band)
                      (dl_intensity_adjacent_low args files single_band) = false).
  { unfold dl_intensity_center, dl_intensity_adjacent_low.
    destruct Hvalid as [Hring|Hcenter].
    - rewrite (nanpercentile_no_valid _ _ Hring). now destruct (nanmedian _).
    - now rewrite (nanmedian_no_valid _ Hcenter). }
  unfold process_dark_land_component.
  apply Z.leb_le in Hsize. rewrite Hsize, (fgt_not_nan _ _ Hland), Hland, Hband.
  simpl. rewrite Hdark.
  destruct (Nat.ltb_spec 4 (length (dl_intensity_array args files single_band)));
    destruct (Nat.ltb_spec (length (dl_intensity_array args files single_band)) 5);
    try lia; [|reflexivity].
  destruct (BimodalityMetrics_init _ _) as [obj|e]; [|reflexivity]. simpl.
  now destruct (compute_metric obj _ _).
Qed.

(** A polarization index past the last band raises IndexError for a
    component over land that is large enough. *)
Theorem dark_land_band_out_of_range args files :
  dl_minimum_pixel args <= dl_sizes args ->
  fgt (dl_ref_land_portion args files) (Num (8 # 10)) = true ->
  (length (intensity_tif files) <= dl_pol_ind args)%nat ->
  process_dark_land_component args files = Raise IndexError.
Proof.
  intros Hsize Hland Hpol. unfold process_dark_land_component.
  apply Z.leb_le in Hsize. rewrite Hsize, (fgt_not_nan _ _ Hland), Hland.
  unfold getitem, dl_bands. rewrite list_lookup_fmap.
  now rewrite lookup_ge_None_2.
Qed.

(** A component that is too small, not over land or without reference land
    gets its verdict without any band being read: the polarization index is
    not checked. *)
Theorem dark_land_band_not_read args files :
  dl_sizes args < dl_minimum_pixel args
  \/ fgt (dl_ref_land_portion args files) (Num (8 # 10)) = false ->
  exists verdict,
    process_dark_land_component args files
    = Ok (dl_i args, verdict, dl_ref_land_portion args files, zeros 5).
Proof.
  intros Hcase. unfold process_dark_land_component.
  destruct ((dl_minimum_pixel args <=? dl_sizes args)
            && negb (isnan (dl_ref_land_portion args files))) eqn:Hgate; [|eauto].
  destruct Hcase as [Hsmall|Hland].
  - apply andb_true_iff in Hgate as [Hle%Z.leb_le _]. lia.
  - rewrite Hland. eauto.
Qed.

(** Whatever the branch, the result carries the index of the component, the
    land portion of the component, and five metric values, all of them 0
    outside the debug mode. *)
Theorem dark_land_result_shape args files r :
  process_dark_land_component args files = Ok r ->
  dl_index r = dl_i args
  /\ r.1.2 = dl_ref_land_portion args files
  /\ length r.2 = 5%nat
  /\ (dl_debug_mode args = false -> r.2 = zeros 5).
Proof.
  unfold process_dark_land_component, dl_index.
  destruct (_ && _); [|now intros [= <-]].
  destruct (fgt _ _); [|now intros [= <-]].
  destruct (getitem _ _) as [single_band|]; cbn [mbind result_bind]; [|discriminate].
  destruct (fgt _ _); [now intros [= <-]|].
  destruct (_ <? _)%nat; [|now intros [= <-]].
  destruct (BimodalityMetrics_init _ _) as [obj|]; cbn [mbind result_bind]; [|discriminate].
  destruct (compute_metric _ _ _); cbn [mbind result_bind]; [|discriminate].
  intros [= <-]. cbn [fst snd]. repeat split.
  - destruct (dl_debug_mode args); [|reflexivity].
    now destruct (get_metric obj) as [[[[? ?] ?] ?] ?].
  - now intros ->.
Qed.

(** A threshold list of fewer than two entries makes the bright-water
    worker raise IndexError, whatever the water portion is. *)
Theorem bright_water_short_threshold args files bands :
  bw_bands args files = Ok bands ->
  (length (bw_threshold args) < 2)%nat ->
  process_bright_water_component args files = Raise IndexError.
Proof.
  intros Hbands Hlen. unfold process_bright_water_component. rewrite Hbands.
  destruct (bw_threshold args) as [|t0 [|t1 rest]]; [reflexivity|reflexivity|].
  cbn [length] in Hlen. lia.
Qed.

End WorkerProperties.

(** ** The water portion of a gap, in numbers *)

Lemma inject_Z_of_nat_S n :
  (inject_Z (Z.of_nat (S n)) == inject_Z (Z.of_nat n) + 1)%Q.
Proof. rewrite Nat2Z.inj_succ. unfold Z.succ. now rewrite inject_Z_plus. Qed.

Lemma Qsum_indicator l :
  (0 <= Qsum ((fun b : bool => if b then 1%Q else 0%Q) <$> l))%Q
  /\ (Forall (fun b => b = true) l
      /\ (Qsum ((fun b : bool => if b then 1%Q else 0%Q) <$> l)
          == inject_Z (Z.of_nat (length l)))%Q
      \/ (Qsum ((fun b : bool => if b then 1%Q else 0%Q) <$> l)
          <= inject_Z (Z.of_nat (length l)) - 1)%Q).
Proof.
  induction l as [|b l [IH0 IH]].
  - split; [apply Qle_refl|]. left. split; [constructor|reflexivity].
  - rewrite fmap_cons. cbn [Qsum foldr length]. fold (Qsum ((fun b : bool => if b then 1%Q else 0%Q) <$> l)).
    pose proof (inject_Z_of_nat_S (length l)) as HS.
    set (s := Qsum _) in *. set (n := inject_Z (Z.of_nat (length l))) in *.
    set (n' := inject_Z (Z.of_nat (S (length l)))) in *.
    destruct b.
    + split; [lra|]. destruct IH as [[Hall Hs]|Hs].
      * left. split; [now constructor|lra].
      * right. lra.
    + split; [lra|]. right. destruct IH as [[_ Hs]|Hs]; lra.
Qed.

Lemma nanmean_bool_cons b l :
  nanmean_bool (b :: l)
  = Num (Qsum ((fun b : bool => if b then 1%Q else 0%Q) <$> b :: l)
         / inject_Z (Z.of_nat (length (b :: l)))).
Proof.
  unfold nanmean_bool, nanmean. rewrite valid_of_bool, fmap_cons.
  cbn [length]. now rewrite length_fmap.
Qed.

Lemma inject_Z_of_nat_pos n : (0 < inject_Z (Z.of_nat (S n)))%Q.
Proof. change 0%Q with (inject_Z 0). rewrite <- Zlt_Qlt. lia. Qed.

(** The water portion of a gap is a number between 0 and 1, also for a
    component without pixels in its window. *)
Theorem bright_water_portion_range args files :
  exists q, bw_landcover_portion args files = Num q /\ (0 <= q <= 1)%Q.
Proof.
  unfold bw_landcover_portion.
  destruct (select _ _) as [|b l].
  - exists 0%Q. split; [reflexivity|lra].
  - replace (0 <? length (b :: l))%nat with true by reflexivity.
    rewrite nanmean_bool_cons. eexists. split; [reflexivity|].
    pose proof (inject_Z_of_nat_pos (length l)) as Hpos.
    destruct (Qsum_indicator (b :: l)) as [H0 H1].
    cbn [length] in *.
    set (s := Qsum _) in *. set (n := inject_Z (Z.of_nat (S (length l)))) in *.
    split.
    + apply Qle_shift_div_l; [exact Hpos|lra].
    + apply Qle_shift_div_r; [exact Hpos|]. destruct H1 as [[_ H1]|H1]; lra.
Qed.

(** For a component of at most 100 pixels, the bimodality of a gap is
    estimated only when every pixel of the component is water in the
    reference-land or land-cover map. *)
Theorem bright_water_small_component_all_water args files :
  (length (select (bw_mask_water args files) (bw_landcover_water args files)) <= 100)%nat ->
  fgt (bw_landcover_portion args files) (Num (99 # 100)) = true ->
  Forall (fun b => b = true)
         (select (bw_mask_water args files) (bw_landcover_water args files)).
Proof.
  unfold bw_landcover_portion.
  destruct (select _ _) as [|b l]; [discriminate|].
  replace (0 <? length (b :: l))%nat with true by reflexivity.
  rewrite nanmean_bool_cons. intros Hlen Hgt.
  destruct (Qsum_indicator (b :: l)) as [_ [[Hall _]|Hs]]; [exact Hall|].
  exfalso. cbn [fgt] in Hgt. unfold Qltb in Hgt. apply negb_true_iff in Hgt.
  assert (Hlt : (99 # 100 < Qsum ((fun b : bool => if b then 1%Q else 0%Q) <$> b :: l)
                            / inject_Z (Z.of_nat (length (b :: l))))%Q).
  { apply Qnot_le_lt. intros Hle%Qle_bool_iff. congruence. }
  pose proof (inject_Z_of_nat_pos (length l)) as Hpos.
  assert (Hn : (inject_Z (Z.of_nat (length (b :: l))) <= 100)%Q).
  { change 100%Q with (inject_Z 100). rewrite <- Zle_Qle. lia. }
  cbn [length] in *.
  set (s := Qsum _) in *. set (n := inject_Z (Z.of_nat (S (length l)))) in *.
  apply (Qmult_lt_r _ _ n Hpos) in Hlt.
  assert (Hs' : (s / n * n == s)%Q) by (field; lra).
  rewrite Hs' in Hlt. lra.
Qed.

Lemma dark_land_sample_holds_component_witness :
  Num (1 # 100) ∈ dl_intensity_array edge_args edge_files edge_band.
Proof.
  apply (dark_land_sample_holds_component edge_args edge_files edge_band 0 0 (Num (1 # 100)));
    reflexivity.
Defined.

Lemma dark_land_buffer_skips_labelled_witness :
  pixel (dl_mask_buffer edge_args neighbour_files) 0 3 = Some false.
Proof.
  apply (dark_land_buffer_skips_labelled edge_args neighbour_files 0 3 2).
  - reflexivity.
  - lia.
  - unfold label_of. simpl. lia.
Defined.

Lemma dark_land_no_valid_ring_witness :
  dl_verdict <$> process_dark_land_component (N := sample_numerics) lone_args lone_files
  = Ok false.
Proof.
  apply (dark_land_no_valid_ring (N := sample_numerics) lone_args lone_files
           (replicate 2 (replicate 2 (Num (1 # 100))))).
  - simpl. lia.
  - reflexivity.
  - reflexivity.
  - left. reflexivity.
Defined.

Lemma dark_land_band_out_of_range_witness :
  process_dark_land_component (N := sample_numerics)
    {| dl_i := 0; dl_sizes := 4; dl_bounds := (0, 4, 0, 4); dl_pol_ind := 1;
       dl_thresholds := default_thresholds; dl_minimum_pixel := 4;
       dl_debug_mode := false |} bright_square_files
  = Raise IndexError.
Proof.
  apply (dark_land_band_out_of_range (N := sample_numerics)).
  - simpl. lia.
  - reflexivity.
  - simpl. lia.
Defined.

Lemma dark_land_band_not_read_witness :
  let args := {| dl_i := 0; dl_sizes := 3; dl_bounds := (0, 3, 0, 3); dl_pol_ind := 7;
                 dl_thresholds := default_thresholds; dl_minimum_pixel := 4;
                 dl_debug_mode := false |} in
  exists verdict,
    process_dark_land_component (N := sample_numerics) args small_files
    = Ok (dl_i args, verdict, dl_ref_land_portion args small_files, zeros 5).
Proof.
  intros args. apply (dark_land_band_not_read (N := sample_numerics) args small_files).
  left. simpl. lia.
Defined.

Lemma dark_land_result_shape_witness :
  let r := (0%nat, true, dl_ref_land_portion square_args water_files, zeros 5) in
  dl_index r = dl_i square_args
  /\ r.1.2 = dl_ref_land_portion square_args water_files
  /\ length r.2 = 5%nat
  /\ (dl_debug_mode square_args = false -> r.2 = zeros 5).
Proof.
  intros r. apply (dark_land_result_shape (N := sample_numerics) square_args water_files r).
  reflexivity.
Defined.

Lemma bright_water_short_threshold_witness :
  process_bright_water_component (N := sample_numerics)
    {| bw_ind := 0; bw_sizes := 4; bw_bounds := (0, 4, 0, 4); bw_pol_ind := 0;
       bw_threshold := [Num (7 # 10)] |} bright_square_files
  = Raise IndexError.
Proof.
  apply (bright_water_short_threshold (N := sample_numerics) _ bright_square_files
           bright_square).
  - reflexivity.
  - simpl. lia.
Defined.

Lemma bright_water_small_component_all_water_witness :
  Forall (fun b => b = true)
         (select (bw_mask_water gap_args water_files) (bw_landcover_water gap_args water_files)).
Proof.
  apply (bright_water_small_component_all_water gap_args water_files).
  - simpl. lia.
  - reflexivity.
Defined.

(** ** The components the drivers dispatch *)

Lemma component_data_elem (g : nat -> stat_row -> option (nat * Z * bounds_t)) l i st c :
  l !! i = Some st -> g i st = Some c -> c ∈ omap id (imap g l).
Proof.
  intros Hst Hg. apply list_elem_of_omap. exists (Some c). split; [|reflexivity].
  rewrite <- Hg. now apply elem_of_lookup_imap_2.
Qed.

(** The dark-land driver dispatches a component exactly when its bounding
    box touches neither the first nor the last line of the block and its
    size is at least [minimum_pixel]. *)
Theorem dark_land_dispatch_iff bp rows cols minimum_pixel stats_water ind :
  ind ∈ (component_key <$>
           dark_land_component_data bp rows cols minimum_pixel stats_water)
  <-> exists x y w h size,
        tail stats_water !! ind = Some (x, y, w, h, size)
        /\ y <> 0 /\ y + h <> block_length bp /\ minimum_pixel <= size.
Proof.
  split.
  - intros (c & Hkey & Hc)%list_elem_of_fmap.
    apply component_data_entries in Hc as (i & st & Hi & Hg).
    pose proof (dark_land_component_key _ _ _ _ _ _ _ Hg) as Hk.
    assert (Heq : i = ind) by congruence. rewrite Heq in Hi, Hg.
    destruct st as [[[[x y] w] h] size]. exists x, y, w, h, size.
    split; [exact Hi|]. unfold dark_land_component in Hg.
    destruct (negb (y =? 0) && negb (y + h =? block_length bp) && (minimum_pixel <=? size))
      eqn:Hcond; [|discriminate].
    apply andb_true_iff in Hcond as [Hcond Hsize].
    apply andb_true_iff in Hcond as [Htop Hbottom].
    apply negb_true_iff, Z.eqb_neq in Htop, Hbottom. apply Z.leb_le in Hsize. auto.
  - intros (x & y & w & h & size & Hst & Htop & Hbottom & Hsize).
    apply list_elem_of_fmap.
    destruct (dark_land_component bp rows cols minimum_pixel ind (x, y, w, h, size))
      as [c|] eqn:Hg.
    + exists c. split; [symmetry; eapply dark_land_component_key, Hg|].
      eapply component_data_elem; eassumption.
    + exfalso. unfold dark_land_component in Hg.
      apply Z.eqb_neq in Htop, Hbottom. apply Z.leb_le in Hsize.
      rewrite Htop, Hbottom, Hsize in Hg. discriminate.
Qed.

(** The bright-water driver dispatches a component exactly when its
    bounding box touches neither the first nor the last line of the block,
    whatever its size. *)
Theorem bright_water_dispatch_iff bp rows cols stats_water ind :
  ind ∈ (component_key <$> bright_water_component_data bp rows cols stats_water)
  <-> exists x y w h size,
        tail stats_water !! ind = Some (x, y, w, h, size)
        /\ y <> 0 /\ y + h <> block_length bp.
Proof.
  split.
  - intros (c & Hkey & Hc)%list_elem_of_fmap.
    apply component_data_entries in Hc as (i & st & Hi & Hg).
    pose proof (bright_water_component_key _ _ _ _ _ _ Hg) as Hk.
    assert (Heq : i = ind) by congruence. rewrite Heq in Hi, Hg.
    destruct st as [[[[x y] w] h] size]. exists x, y, w, h, size.
    split; [exact Hi|]. unfold bright_water_component in Hg.
    destruct (negb (y =? 0) && negb (y + h =? block_length bp)) eqn:Hcond; [|discriminate].
    apply andb_true_iff in Hcond as [Htop Hbottom].
    apply negb_true_iff, Z.eqb_neq in Htop, Hbottom. auto.
  - intros (x & y & w & h & size & Hst & Htop & Hbottom).
    apply list_elem_of_fmap.
    destruct (bright_water_component bp rows cols ind (x, y, w, h, size)) as [c|] eqn:Hg.
    + exists c. split; [symmetry; eapply bright_water_component_key, Hg|].
      eapply component_data_elem; eassumption.
    + exfalso. unfold bright_water_component in Hg.
      apply Z.eqb_neq in Htop, Hbottom. rewrite Htop, Hbottom in Hg. discriminate.
Qed.

(** The window the dark-land driver hands to a worker lies inside the
    raster and covers the part of the bounding box that is inside the
    raster, in the coordinates of the whole raster. *)
Theorem dark_land_window_covers_component bp rows cols minimum_pixel stats_water
    ind size x_start x_end y_start y_end :
  0 <= cols -> 0 <= rows ->
  (ind, size, (x_start, x_end, y_start, y_end))
    ∈ dark_land_component_data bp rows cols minimum_pixel stats_water ->
  exists x y w h,
    tail stats_water !! ind = Some (x, y, w, h, size)
    /\ 0 <= x_start <= Z.max x 0
    /\ Z.min (x + w) cols <= x_end <= cols
    /\ 0 <= y_start <= Z.max (y + read_start_line bp) 0
    /\ Z.min (y + h + read_start_line bp) rows <= y_end <= rows.
Proof.
  intros Hcols Hrows Hc.
  apply component_data_entries in Hc as (i & st & Hi & Hg).
  pose proof (dark_land_component_key _ _ _ _ _ _ _ Hg) as Hk. cbn in Hk. subst i.
  destruct st as [[[[x y] w] h] size']. exists x, y, w, h.
  unfold dark_land_component in Hg.
  destruct (_ && _); [|discriminate]. injection Hg as <- <- <- <- <-.
  split; [exact Hi|]. lia.
Qed.

(** The lookup of the scatter sends the label v to the entry v of the
    arrays extended by the background entry, and every label above the
    number of components to their last entry. *)
Theorem scatter_index_of_label nb v :
  searchsorted (old_val nb) (Z.of_nat v) = Nat.min nb v.
Proof.
  unfold old_val. rewrite searchsorted_old_val_aux by lia. lia.
Qed.

Lemma dark_land_window_covers_component_witness :
  exists x y w h,
    tail (cc_stats sample_cc) !! 0%nat = Some (x, y, w, h, 4)
    /\ 0 <= 0 <= Z.max x 0
    /\ Z.min (x + w) 5 <= 3 <= 5
    /\ 0 <= 0 <= Z.max (y + read_start_line sample_block) 0
    /\ Z.min (y + h + read_start_line sample_block) 12 <= 4 <= 12.
Proof.
  apply (dark_land_window_covers_component sample_block 12 5 4 (cc_stats sample_cc)
           0 4 0 3 0 4); [lia|lia|].
  vm_compute. left.
Defined.

(** ** What the scatter writes *)

Lemma foldlM_assign_dark_land_length debug_mode results a a' :
  foldlM (assign_dark_land debug_mode) a results = Ok a' ->
  length (bimodality_output a') = length (bimodality_output a)
  /\ length (check_output a') = length (check_output a).
Proof.
  revert a. induction results as [|r results IH]; intros a; simpl.
  - now intros [= <-].
  - intros (a1 & Ha1 & Hrest)%bind_Ok.
    destruct (IH _ Hrest) as [-> ->].
    rewrite assign_dark_land_guarded in Ha1.
    destruct (dl_in_range _ _ _); [|discriminate]. injection Ha1 as <-.
    destruct r as [[[i b] p] m]. simpl. now rewrite !length_insert.
Qed.

Lemma foldlM_assign_dark_land_assigned debug_mode results a a' ind b p m :
  NoDup (dl_index <$> results) ->
  foldlM (assign_dark_land debug_mode) a results = Ok a' ->
  (ind, b, p, m) ∈ results ->
  bimodality_output a' !! ind = Some (Z.b2z b)
  /\ check_output a' !! ind = Some 0.
Proof.
  revert a. induction results as [|r results IH]; intros a Hnodup Hfold Hin.
  - inversion Hin.
  - simpl in Hfold. apply bind_Ok in Hfold as (a1 & Ha1 & Hrest).
    rewrite fmap_cons in Hnodup. apply NoDup_cons in Hnodup as [Hnotin Hnodup].
    apply elem_of_cons in Hin as [<-|Hin]; [|now apply (IH a1)].
    destruct (foldlM_assign_dark_land_untouched debug_mode results a1 a' ind Hrest Hnotin)
      as [-> ->].
    rewrite assign_dark_land_guarded in Ha1.
    destruct (dl_in_range debug_mode a _) eqn:Hrange; [|discriminate].
    injection Ha1 as <-. unfold dl_in_range, dl_index in *. simpl in *.
    apply andb_true_iff in Hrange as [Hrange _].
    apply andb_true_iff in Hrange as [Hbo%bool_decide_eq_true Hco%bool_decide_eq_true].
    split; now apply list_lookup_insert_eq.
Qed.

Lemma searchsorted_le a v : (searchsorted a v <= length a)%nat.
Proof. induction a as [|x a IH]; simpl; [lia|]. destruct (Qle_bool _ _); lia. Qed.

Lemma mapM_succeeds {A B} (f : A -> result B) l :
  Forall (fun x => exists y, f x = Ok y) l -> exists k, mapM f l = Ok k.
Proof.
  induction 1 as [|x l [y Hy] _ [k Hk]]; simpl; [eauto|].
  rewrite Hy. cbn [mbind result_bind]. rewrite Hk. cbn. eauto.
Qed.

Lemma take_image_succeeds {A} (values : list A) (index : array2 nat) :
  Forall (Forall (fun k => (k < length values)%nat)) index ->
  exists image, take_image values index = Ok image.
Proof.
  intros Hindex. unfold take_image. apply mapM_succeeds.
  eapply Forall_impl; [exact Hindex|]. intros row Hrow. apply mapM_succeeds.
  eapply Forall_impl; [exact Hrow|]. intros k Hk. unfold getitem.
  destruct (lookup_lt_is_Some_2 values k Hk) as [v ->]. eauto.
Qed.

Lemma scatter_index_in_range nb (output_water : array2 Z) :
  Forall (Forall (fun k => (k < S nb)%nat))
         (map2d (searchsorted (old_val nb)) output_water).
Proof.
  unfold map2d. apply Forall_fmap, Forall_forall. intros row _.
  apply Forall_fmap, Forall_forall. intros v _. simpl.
  pose proof (searchsorted_le (old_val nb) v) as Hle.
  unfold old_val in Hle. rewrite length_fmap, length_seq in Hle. unfold old_val. lia.
Qed.

Lemma foldlM_assign_dark_land_succeeds debug_mode results a n :
  length (bimodality_output a) = n -> length (check_output a) = n ->
  length (ref_land_portion_output a) = n -> length (metric_output a) = n ->
  Forall (fun r => (dl_index r < n)%nat) results ->
  exists a', foldlM (assign_dark_land debug_mode) a results = Ok a'.
Proof.
  intros Hbo Hco Hrp Hmo Hall. revert a Hbo Hco Hrp Hmo.
  induction Hall as [|r results Hr _ IH]; intros a Hbo Hco Hrp Hmo; simpl; [eauto|].
  rewrite assign_dark_land_guarded.
  assert (Hrange : dl_in_range debug_mode a (dl_index r) = true).
  { unfold dl_in_range. rewrite Hbo, Hco, Hrp, Hmo.
    rewrite (bool_decide_eq_true_2 _ Hr). now destruct debug_mode. }
  rewrite Hrange. cbn [mbind result_bind]. apply IH;
    destruct r as [[[i b] p] m]; simpl; destruct debug_mode;
    now rewrite ?length_insert.
Qed.

(** A pixel of the background (label 0) gets 0 in the bimodality image and
    in the check image. *)
Theorem dark_land_scatter_background debug_mode nb output_water results
    bimodality_image check_image r c :
  dark_land_scatter debug_mode nb output_water results
  = Ok (bimodality_image, check_image) ->
  pixel output_water r c = Some 0 ->
  pixel bimodality_image r c = Some 0 /\ pixel check_image r c = Some 0.
Proof.
  unfold dark_land_scatter.
  intros (a & Ha & Hrest)%bind_Ok Hlabel.
  apply bind_Ok in Hrest as (bim & Hbim & Hrest).
  apply bind_Ok in Hrest as (chk & Hchk & [= <- <-]).
  assert (Hidx : pixel (map2d (searchsorted (old_val nb)) output_water) r c = Some 0%nat).
  { rewrite pixel_map2d, Hlabel. simpl. unfold old_val.
    change 0 with (Z.of_nat 0). rewrite searchsorted_old_val_aux by lia.
    f_equal. lia. }
  destruct (take_image_pixel _ _ _ _ _ _ Hchk Hidx) as (v & Hv & ->).
  destruct (take_image_pixel _ _ _ _ _ _ Hbim Hidx) as (v' & Hv' & ->).
  simpl in Hv, Hv'. split; congruence.
Qed.

Section ScatterProperties.
Context {N : Numerics}.

(** Every pixel of a dispatched component gets the verdict of its worker in
    the bimodality image and 0 in the check image. *)
Theorem dispatched_component_gets_verdict cfg files pol_ind bp rows cols minimum_pixel
    stats_water nb output_water results bimodality_image check_image ind b p m r c :
  dark_land_pool cfg files pol_ind
    (dark_land_component_data bp rows cols minimum_pixel stats_water) = Ok results ->
  dark_land_scatter (rf_debug_mode cfg) nb output_water results
  = Ok (bimodality_image, check_image) ->
  (ind, b, p, m) ∈ results ->
  pixel output_water r c = Some (label_of ind) ->
  pixel bimodality_image r c = Some (Z.b2z b) /\ pixel check_image r c = Some 0.
Proof.
  intros Hpool Hscatter Hin Hlabel.
  assert (Hnodup : NoDup (dl_index <$> results)).
  { rewrite (dark_land_pool_indices _ _ _ _ _ Hpool).
    apply dark_land_component_data_NoDup. }
  unfold dark_land_scatter in Hscatter.
  apply bind_Ok in Hscatter as (a & Ha & Hrest).
  apply bind_Ok in Hrest as (bim & Hbim & Hrest).
  apply bind_Ok in Hrest as (chk & Hchk & [= <- <-]).
  destruct (foldlM_assign_dark_land_assigned _ _ _ _ _ _ _ _ Hnodup Ha Hin) as [Hbo Hco].
  destruct (foldlM_assign_dark_land_length _ _ _ _ Ha) as [Hlen _].
  simpl in Hlen. rewrite length_replicate in Hlen.
  assert (Hind : (ind < nb)%nat).
  { rewrite <- Hlen. eapply lookup_lt_Some, Hbo. }
  assert (Hidx : pixel (map2d (searchsorted (old_val nb)) output_water) r c
                 = Some (S ind)).
  { rewrite pixel_map2d, Hlabel. simpl. now rewrite searchsorted_label. }
  destruct (take_image_pixel _ _ _ _ _ _ Hchk Hidx) as (v & Hv & ->).
  destruct (take_image_pixel _ _ _ _ _ _ Hbim Hidx) as (v' & Hv' & ->).
  simpl in Hv, Hv'. split; congruence.
Qed.

(** The scatter cannot raise on the results of the pool, whatever the
    labels of the block are: a polarization fails only when a worker
    fails. *)
Theorem dark_land_scatter_succeeds cfg files pol_ind bp rows cols minimum_pixel
    stats_water output_water results :
  dark_land_pool cfg files pol_ind
    (dark_land_component_data bp rows cols minimum_pixel stats_water) = Ok results ->
  exists bimodality_image check_image,
    dark_land_scatter (rf_debug_mode cfg) (length (tail stats_water)) output_water results
    = Ok (bimodality_image, check_image).
Proof.
  intros Hpool. set (nb := length (tail stats_water)).
  assert (Hall : Forall (fun r => (dl_index r < nb)%nat) results).
  { apply Forall_forall. intros res Hres.
    assert (Hkey : dl_index res ∈ dl_index <$> results)
      by (apply list_elem_of_fmap; eauto).
    rewrite (dark_land_pool_indices _ _ _ _ _ Hpool) in Hkey.
    apply list_elem_of_fmap in Hkey as (comp & -> & Hcomp).
    apply component_data_entries in Hcomp as (i & st & Hi & Hg).
    rewrite (dark_land_component_key _ _ _ _ _ _ _ Hg).
    eapply lookup_lt_Some, Hi. }
  destruct (foldlM_assign_dark_land_succeeds (rf_debug_mode cfg) results
              (dark_land_arrays_init nb) nb) as [a Ha];
    try (simpl; unfold zeros; now rewrite length_replicate); [exact Hall|].
  destruct (foldlM_assign_dark_land_length _ _ _ _ Ha) as [Hbo Hco].
  simpl in Hbo, Hco. rewrite length_replicate in Hbo, Hco.
  unfold dark_land_scatter. fold nb. rewrite Ha. cbn [mbind result_bind].
  destruct (take_image_succeeds (0 :: bimodality_output a)
              (map2d (searchsorted (old_val nb)) output_water)) as [bim Hbim].
  { cbn [length]. rewrite Hbo. apply scatter_index_in_range. }
  destruct (take_image_succeeds (0 :: check_output a)
              (map2d (searchsorted (old_val nb)) output_water)) as [chk Hchk].
  { cbn [length]. rewrite Hco. apply scatter_index_in_range. }
  rewrite Hbim. cbn [mbind result_bind]. rewrite Hchk. cbn [mbind result_bind]. eauto.
Qed.

End ScatterProperties.

Lemma dark_land_scatter_background_witness :
  exists bimodality_image check_image,
    dark_land_scatter false 3 sample_labels sample_dark_land_results
    = Ok (bimodality_image, check_image)
    /\ pixel bimodality_image 0 0 = Some 0 /\ pixel check_image 0 0 = Some 0.
Proof.
  eexists _, _. split; [reflexivity|].
  apply (dark_land_scatter_background false 3 sample_labels sample_dark_land_results
           _ _ 0 0 eq_refl eq_refl).
Defined.

Lemma dispatched_component_gets_verdict_witness :
  exists bimodality_image check_image,
    dark_land_scatter false 3 sample_labels sample_dark_land_results
    = Ok (bimodality_image, check_image)
    /\ pixel bimodality_image 1 0 = Some 1 /\ pixel check_image 1 0 = Some 0.
Proof.
  eexists _, _. split; [reflexivity|].
  apply (dispatched_component_gets_verdict (N := sample_numerics) sample_config sample_files
           0%nat sample_block 12 5 4 (cc_stats sample_cc) 3 sample_labels
           sample_dark_land_results _ _ 0%nat true (Num (0 # 4)) (zeros 5) 1 0
           eq_refl eq_refl).
  - left.
  - reflexivity.
Defined.

Lemma dark_land_scatter_succeeds_witness :
  exists bimodality_image check_image,
    dark_land_scatter (rf_debug_mode sample_config) (length (tail (cc_stats sample_cc)))
      sample_labels sample_dark_land_results
    = Ok (bimodality_image, check_image).
Proof.
  apply (dark_land_scatter_succeeds (N := sample_numerics) sample_config sample_files
           0%nat sample_block 12 5 4 (cc_stats sample_cc) sample_labels
           sample_dark_land_results eq_refl).
Defined.

(** ** The passes of the drivers *)

Section DriverProperties.
Context {N : Numerics} {S : BlockRasterStore}.

Lemma remove_false_water_block_unlisted cfg block_iter st bp :
  existsb is_copol_or_crosspol (rf_pol_list cfg) = false ->
  remove_false_water_block cfg block_iter st bp = Raise UnboundLocalError.
Proof.
  intros Hnone. destruct st as [s water_mask_path]. unfold remove_false_water_block.
  rewrite (remove_false_water_pols_skipped _ _ _ _ _ _ (enumerate_skipped _ Hnone)).
  now rewrite Hnone.
Qed.

(** With no polarization among VV, VH, HH and HV in [pol_list], the driver
    does not return its input: as soon as the raster has a block it raises
    UnboundLocalError, [check_image] never being bound. *)
Theorem remove_false_water_unlisted_pols cfg s bp block_params :
  existsb is_copol_or_crosspol (rf_pol_list cfg) = false ->
  block_param_generator (rf_lines_per_block cfg) (rf_rows cfg, rf_cols cfg) (0, 0)
  = bp :: block_params ->
  remove_false_water_bimodality_parallel cfg s = Raise UnboundLocalError.
Proof.
  intros Hnone Hblocks. unfold remove_false_water_bimodality_parallel.
  change (enumerate (lines_per_block_set (rf_lines_per_block cfg) (rf_rows cfg)))
    with [(0%nat, rf_lines_per_block cfg); (1%nat, rf_rows cfg)].
  cbn [foldlM].
  assert (Hpass : remove_false_water_pass cfg (s, InputMask, [])
                    (0%nat, rf_lines_per_block cfg) = Raise UnboundLocalError).
  { unfold remove_false_water_pass. rewrite Hblocks. cbn [foldlM].
    now rewrite (remove_false_water_block_unlisted _ _ _ _ Hnone). }
  now rewrite Hpass.
Qed.

Lemma fill_gap_pol_unbound cfg files cc component_data st pol_ind pol :
  is_copol_or_crosspol pol = false ->
  fg_args_list st = None ->
  fill_gap_pol cfg files cc component_data st (pol_ind, pol) = Raise UnboundLocalError.
Proof. intros Hpol Hargs. unfold fill_gap_pol. now rewrite Hpol, Hargs. Qed.

Lemma fill_gap_block_unbound cfg block_iter bright_water_path s vars bp pol pols :
  fg_pol_list cfg = pol :: pols ->
  is_copol_or_crosspol pol = false ->
  fg_args_list vars = None ->
  fill_gap_block cfg block_iter bright_water_path (s, vars) bp = Raise UnboundLocalError.
Proof.
  intros Hpols Hpol Hargs. unfold fill_gap_block. rewrite Hpols.
  change (enumerate (pol :: pols))
    with ((0%nat, pol) :: imap (pair ∘ Datatypes.S) pols).
  cbn [foldlM]. now rewrite fill_gap_pol_unbound.
Qed.

(** When the first polarization of [pol_list] is not among VV, VH, HH and
    HV, the gap-filling driver raises UnboundLocalError on the first block:
    the pool runs on an argument list that is not bound yet. *)
Theorem fill_gap_first_pol_unlisted cfg s pol pols bp block_params :
  fg_pol_list cfg = pol :: pols ->
  is_copol_or_crosspol pol = false ->
  block_param_generator (fg_lines_per_block cfg) (fg_rows cfg, fg_cols cfg) (0, 0)
  = bp :: block_params ->
  fill_gap_water_bimodality_parallel cfg s = Raise UnboundLocalError.
Proof.
  intros Hpols Hpol Hblocks. unfold fill_gap_water_bimodality_parallel.
  change (enumerate (lines_per_block_set (fg_lines_per_block cfg) (fg_rows cfg)))
    with [(0%nat, fg_lines_per_block cfg); (1%nat, fg_rows cfg)].
  cbn [foldlM].
  match goal with |- context [fill_gap_pass cfg ?st ?p] =>
    assert (Hpass : fill_gap_pass cfg st p = Raise UnboundLocalError) end.
  { unfold fill_gap_pass. rewrite Hblocks. cbn [foldlM].
    now rewrite (fill_gap_block_unbound cfg _ _ _ _ _ pol pols Hpols Hpol) by reflexivity. }
  now rewrite Hpass.
Qed.

(** Whenever the driver returns, its result is the merge of the outputs of
    its two passes: the branch for a single output is never taken. *)
Theorem remove_false_water_result_is_merged cfg s image :
  remove_false_water_bimodality_parallel cfg s = Ok image ->
  exists s',
    image = read_geotiff
              (merge_binary_layers s' [RemoveFalseWaterTemp 0; RemoveFalseWaterTemp 1]
                 [1; 1] MergedRemovedFalseWater (rf_lines_per_block cfg))
              MergedRemovedFalseWater.
Proof.
  unfold remove_false_water_bimodality_parallel.
  change (enumerate (lines_per_block_set (rf_lines_per_block cfg) (rf_rows cfg)))
    with [(0%nat, rf_lines_per_block cfg); (1%nat, rf_rows cfg)].
  cbn [foldlM]. intros (st & Hfold & Himage)%bind_Ok.
  apply bind_Ok in Hfold as (st1 & Hpass1 & Hfold).
  apply bind_Ok in Hfold as (st2 & Hpass2 & [= <-]).
  unfold remove_false_water_pass in Hpass1.
  apply bind_Ok in Hpass1 as ([s1 p1] & _ & [= <-]).
  unfold remove_false_water_pass in Hpass2.
  apply bind_Ok in Hpass2 as ([s2 p2] & _ & [= <-]).
  cbn in Himage. injection Himage as <-. eauto.
Qed.

(** After a pass, the water mask of the next pass is the check raster as
    soon as one block of the pass reaches the last line of the raster, and
    the mask of this pass otherwise. *)
Theorem remove_false_water_pass_mask cfg s water_mask_path paths block_iter lines_per_block
    s' water_mask_path' paths' :
  remove_false_water_pass cfg (s, water_mask_path, paths) (block_iter, lines_per_block)
  = Ok (s', water_mask_path', paths') ->
  water_mask_path'
  = if existsb (fun bp => rf_rows cfg <=? block_length bp + read_start_line bp)
         (block_param_generator lines_per_block (rf_rows cfg, rf_cols cfg) (0, 0))
    then CheckRemoveFalseWater else water_mask_path.
Proof.
  unfold remove_false_water_pass.
  generalize (block_param_generator lines_per_block (rf_rows cfg, rf_cols cfg) (0, 0)).
  intros block_params ([s1 p1] & Hfold & [= <- <- _])%bind_Ok.
  revert s water_mask_path Hfold.
  induction block_params as [|bp block_params IH]; intros s water_mask_path Hfold.
  - cbn in Hfold. now injection Hfold as <-.
  - cbn [foldlM] in Hfold. apply bind_Ok in Hfold as ([s2 p2] & Hblock & Hfold).
    rewrite (IH _ _ Hfold). cbn [existsb].
    unfold remove_false_water_block in Hblock.
    apply bind_Ok in Hblock as (ps & _ & Hblock).
    apply bind_Ok in Hblock as (bimodality_total & _ & Hblock).
    apply bind_Ok in Hblock as (chk & _ & [= _ <-]).
    destruct (rf_rows cfg <=? block_length bp + read_start_line bp); cbn [orb];
      [now destruct (existsb _ _)|reflexivity].
Qed.

Lemma foldlM_assign_bright_water_length threshold results a a' :
  foldlM (assign_bright_water threshold) a results = Ok a' ->
  length a'.1 = length a.1 /\ length a'.2 = length a.2.
Proof.
  revert a. induction results as [|r results IH]; intros a; simpl.
  - now intros [= <-].
  - intros (a1 & Ha1 & Hrest)%bind_Ok.
    destruct (IH _ Hrest) as [-> ->].
    rewrite assign_bright_water_guarded in Ha1.
    destruct (bw_in_range _ _ _); [|discriminate]. injection Ha1 as <-.
    unfold bw_update. simpl. now rewrite !length_insert.
Qed.

(** For a polarization outside VV, VH, HH and HV that follows a listed one,
    the arrays are not reset: the pool runs again on the arguments of the
    listed polarization, and each array gets one more leading entry. *)
Theorem fill_gap_pol_unlisted_grows cfg files cc component_data st pol_ind pol st'
    bimodality_output check_output :
  is_copol_or_crosspol pol = false ->
  fg_bimodality_output st = Some bimodality_output ->
  fg_check_output st = Some check_output ->
  fill_gap_pol cfg files cc component_data st (pol_ind, pol) = Ok st' ->
  fg_args_list st' = fg_args_list st
  /\ exists bimodality_output' check_output',
       fg_bimodality_output st' = Some bimodality_output'
       /\ fg_check_output st' = Some check_output'
       /\ length bimodality_output' = Datatypes.S (length bimodality_output)
       /\ length check_output' = Datatypes.S (length check_output).
Proof.
  intros Hpol Hbo Hco. unfold fill_gap_pol. rewrite Hpol, Hbo, Hco.
  intros (args_list & _ & Hrest)%bind_Ok.
  apply bind_Ok in Hrest as (results & _ & Hrest). cbn [bound mbind result_bind] in Hrest.
  apply bind_Ok in Hrest as ([[[bo co] bim] chk] & Hscatter & [= <-]).
  split; [reflexivity|]. exists bo, co. cbn. split; [reflexivity|]. split; [reflexivity|].
  unfold bright_water_scatter in Hscatter.
  apply bind_Ok in Hscatter as ([bo0 co0] & Hfold & Hrest).
  apply bind_Ok in Hrest as (bim' & _ & Hrest).
  apply bind_Ok in Hrest as (chk' & _ & [= <- <- _ _]).
  destruct (foldlM_assign_bright_water_length _ _ _ _ Hfold) as [Hl1 Hl2].
  cbn in Hl1, Hl2. cbn [length]. now rewrite Hl1, Hl2.
Qed.

End DriverProperties.

Lemma remove_false_water_unlisted_pols_witness :
  remove_false_water_bimodality_parallel (N := sample_numerics) (S := sample_store)
    ratio_config sample_rasters = Raise UnboundLocalError.
Proof.
  eapply (remove_false_water_unlisted_pols (N := sample_numerics) (S := sample_store)
            ratio_config sample_rasters).
  - reflexivity.
  - reflexivity.
Defined.

Lemma fill_gap_first_pol_unlisted_witness :
  fill_gap_water_bimodality_parallel (N := sample_numerics) (S := sample_store)
    span_fill_gap_config sample_rasters = Raise UnboundLocalError.
Proof.
  eapply (fill_gap_first_pol_unlisted (N := sample_numerics) (S := sample_store)
            span_fill_gap_config sample_rasters).
  - reflexivity.
  - reflexivity.
  - reflexivity.
Defined.

Lemma remove_false_water_result_is_merged_witness :
  exists image s',
    remove_false_water_bimodality_parallel (N := sample_numerics) (S := sample_store)
      sample_config sample_rasters = Ok image
    /\ image = read_geotiff (BlockRasterStore := sample_store)
                 (merge_binary_layers (BlockRasterStore := sample_store) s'
                    [RemoveFalseWaterTemp 0; RemoveFalseWaterTemp 1] [1; 1]
                    MergedRemovedFalseWater (rf_lines_per_block sample_config))
                 MergedRemovedFalseWater.
Proof.
  destruct (remove_false_water_bimodality_parallel (N := sample_numerics)
              (S := sample_store) sample_config sample_rasters) as [image|e] eqn:Hrun;
    [|vm_compute in Hrun; discriminate].
  exists image.
  destruct (remove_false_water_result_is_merged (N := sample_numerics) (S := sample_store)
              sample_config sample_rasters image Hrun) as [s' Hs'].
  exists s'. split; [reflexivity|exact Hs'].
Defined.

Lemma remove_false_water_pass_mask_witness :
  exists s' paths',
    remove_false_water_pass (N := sample_numerics) (S := sample_store) sample_config
      (sample_rasters, InputMask, []) (0%nat, 6)
    = Ok (s', CheckRemoveFalseWater, paths').
Proof.
  destruct (remove_false_water_pass (N := sample_numerics) (S := sample_store)
              sample_config (sample_rasters, InputMask, []) (0%nat, 6))
    as [[[s' water_mask_path'] paths']|e] eqn:Hrun; [|vm_compute in Hrun; discriminate].
  exists s', paths'.
  rewrite (remove_false_water_pass_mask (N := sample_numerics) (S := sample_store)
             sample_config sample_rasters InputMask [] 0%nat 6 s' water_mask_path' paths'
             Hrun).
  reflexivity.
Defined.

Lemma fill_gap_pol_unlisted_grows_witness :
  exists st',
    fill_gap_pol (N := sample_numerics) sample_fill_gap_config sample_files sample_cc
      (bright_water_component_data sample_block 12 5 (cc_stats sample_cc))
      sample_fill_gap_pols (1%nat, "span"%string) = Ok st'
    /\ fg_args_list st' = fg_args_list sample_fill_gap_pols
    /\ exists bimodality_output' check_output',
         fg_bimodality_output st' = Some bimodality_output'
         /\ fg_check_output st' = Some check_output'
         /\ length bimodality_output' = 5%nat
         /\ length check_output' = 5%nat.
Proof.
  destruct (fill_gap_pol (N := sample_numerics) sample_fill_gap_config sample_files sample_cc
              (bright_water_component_data sample_block 12 5 (cc_stats sample_cc))
              sample_fill_gap_pols (1%nat, "span"%string)) as [st'|e] eqn:Hrun;
    [|vm_compute in Hrun; discriminate].
  exists st'. split; [reflexivity|].
  exact (fill_gap_pol_unlisted_grows (N := sample_numerics) sample_fill_gap_config
           sample_files sample_cc _ sample_fill_gap_pols 1%nat "span"%string st'
           [0; 0; 0; 0] [0; 0; 0; 1] eq_refl eq_refl eq_refl Hrun).
Defined.

(** ** The outcome of the passes *)

Lemma dark_land_component_skipped bp rows cols minimum_pixel stats_water ind st_row :
  tail stats_water !! ind = Some st_row ->
  dark_land_component bp rows cols minimum_pixel ind st_row = None ->
  ind ∉ (component_key <$>
           dark_land_component_data bp rows cols minimum_pixel stats_water).
Proof.
  intros Hst Hnone (c & Hkey & Hc)%list_elem_of_fmap.
  apply component_data_entries in Hc as (i & st & Hi & Hg).
  pose proof (dark_land_component_key _ _ _ _ _ _ _ Hg) as Hk.
  assert (Heq : i = ind) by congruence. rewrite Heq in Hi, Hg.
  pose proof (eq_trans (eq_sym Hst) Hi) as Hrow. injection Hrow as <-.
  congruence.
Qed.

Lemma dark_land_scatter_assigned debug_mode nb output_water results
    bimodality_image check_image ind b p m r c :
  NoDup (dl_index <$> results) ->
  dark_land_scatter debug_mode nb output_water results
  = Ok (bimodality_image, check_image) ->
  (ind, b, p, m) ∈ results ->
  pixel output_water r c = Some (label_of ind) ->
  pixel bimodality_image r c = Some (Z.b2z b) /\ pixel check_image r c = Some 0.
Proof.
  intros Hnodup Hscatter Hin Hlabel. unfold dark_land_scatter in Hscatter.
  apply bind_Ok in Hscatter as (a & Ha & Hrest).
  apply bind_Ok in Hrest as (bim & Hbim & Hrest).
  apply bind_Ok in Hrest as (chk & Hchk & [= <- <-]).
  destruct (foldlM_assign_dark_land_assigned _ _ _ _ _ _ _ _ Hnodup Ha Hin) as [Hbo Hco].
  destruct (foldlM_assign_dark_land_length _ _ _ _ Ha) as [Hlen _].
  simpl in Hlen. rewrite length_replicate in Hlen.
  assert (Hind : (ind < nb)%nat).
  { rewrite <- Hlen. eapply lookup_lt_Some, Hbo. }
  assert (Hidx : pixel (map2d (searchsorted (old_val nb)) output_water) r c
                 = Some (Datatypes.S ind)).
  { rewrite pixel_map2d, Hlabel. simpl. now rewrite searchsorted_label. }
  destruct (take_image_pixel _ _ _ _ _ _ Hchk Hidx) as (v & Hv & ->).
  destruct (take_image_pixel _ _ _ _ _ _ Hbim Hidx) as (v' & Hv' & ->).
  simpl in Hv, Hv'. split; congruence.
Qed.

Lemma sum_images_pixel images verdicts r c :
  images ≠ [] ->
  Forall2 (fun im v => pixel im r c = Some (Z.b2z v)) images verdicts ->
  pixel (sum_images images) r c = Some (count_true verdicts).
Proof.
  intros Hne Hall. destruct Hall as [|im v ims vs Him Hims]; [congruence|]. clear Hne.
  cbn [sum_images count_true foldr]. fold (count_true vs).
  generalize dependent (Z.b2z v). intros a. revert im a.
  induction Hims as [|x w ims vs Hx _ IH]; intros im a Him; cbn [foldl count_true foldr].
  - now rewrite Z.add_0_r.
  - fold (count_true vs). rewrite Z.add_assoc. apply IH.
    now rewrite (pixel_zip2d Z.add im x r c a (Z.b2z w)).
Qed.

Lemma mask_background_label output_water image r c l v :
  pixel output_water r c = Some l -> l <> 0 ->
  pixel image r c = Some v ->
  pixel (mask_background output_water image) r c = Some v.
Proof.
  intros Hl Hne Him. unfold mask_background.
  rewrite (pixel_zip2d _ output_water image r c l v) by assumption.
  now replace (l =? 0) with false by (symmetry; now apply Z.eqb_neq).
Qed.

Lemma filter_enumerate_nil (pols : list (nat * string)) :
  List.filter (fun p : nat * string => is_copol_or_crosspol p.2) pols = [] ->
  Forall (fun p : nat * string => is_copol_or_crosspol p.2 = false) pols.
Proof.
  induction pols as [|p pols IH]; [constructor|]. cbn [List.filter].
  destruct (is_copol_or_crosspol p.2) eqn:Hp; [discriminate|]. auto.
Qed.

Section PassProperties.
Context {N : Numerics} {S : BlockRasterStore}.

Lemma remove_false_water_pol_not_dispatched cfg files cc component_data ind r c st p st' :
  (ind < length (tail (cc_stats cc)))%nat ->
  ind ∉ (component_key <$> component_data) ->
  pixel (cc_labels cc) r c = Some (label_of ind) ->
  remove_false_water_pol cfg files cc component_data st p = Ok st' ->
  deferred_in st r c -> deferred_in st' r c.
Proof.
  intros Hind Hnotin Hlabel Hstep [Hset Hchk]. destruct p as [pol_ind pol].
  unfold remove_false_water_pol in Hstep.
  destruct (is_copol_or_crosspol pol); [|injection Hstep as <-; now split].
  apply bind_Ok in Hstep as (results & Hpool & Hstep).
  apply bind_Ok in Hstep as ([bim chk] & Hscatter & [= <-]).
  rewrite <- (dark_land_pool_indices _ _ _ _ _ Hpool) in Hnotin.
  destruct (dark_land_scatter_untouched _ _ _ _ _ _ _ _ _ Hscatter Hind Hnotin Hlabel)
    as [Hc Hb].
  split; simpl.
  - apply Forall_app. split; [assumption|]. now constructor.
  - intros chk' [= <-]. split; [assumption|]. now destruct (bimodality_set st).
Qed.

Lemma remove_false_water_pols_not_dispatched cfg files cc component_data ind r c pols st st' :
  (ind < length (tail (cc_stats cc)))%nat ->
  ind ∉ (component_key <$> component_data) ->
  pixel (cc_labels cc) r c = Some (label_of ind) ->
  foldlM (remove_false_water_pol cfg files cc component_data) st pols = Ok st' ->
  deferred_in st r c -> deferred_in st' r c.
Proof.
  intros Hind Hnotin Hlabel. revert st.
  induction pols as [|p pols IH]; intros st; simpl.
  - now intros [= <-].
  - intros (st1 & Hstep & Hrest)%bind_Ok Hdef. apply (IH _ Hrest).
    eapply remove_false_water_pol_not_dispatched; eassumption.
Qed.

Lemma dark_land_pool_result cfg files pol_ind component_data results comp :
  dark_land_pool cfg files pol_ind component_data = Ok results ->
  comp ∈ component_data ->
  exists res, process_dark_land_component (component_args cfg pol_ind comp) files = Ok res
              /\ res ∈ results.
Proof.
  unfold dark_land_pool. intros Hpool%mapM_Ok (i & Hi)%list_elem_of_lookup_1.
  assert (Hargs : dark_land_args_list cfg pol_ind component_data !! i
                  = Some (component_args cfg pol_ind comp)).
  { unfold dark_land_args_list. rewrite list_lookup_fmap, Hi.
    now destruct comp as [[ind size] bounds]. }
  destruct (Forall2_lookup_l _ _ _ _ _ Hpool Hargs) as (res & Hres & Hrun).
  exists res. split; [exact Hrun|]. eapply list_elem_of_lookup_2, Hres.
Qed.

Lemma remove_false_water_pols_dispatched cfg files cc bp comp r c pols st st' verdicts0 :
  comp ∈ dark_land_component_data bp (rf_rows cfg) (rf_cols cfg)
           (rf_minimum_pixel cfg) (cc_stats cc) ->
  pixel (cc_labels cc) r c = Some (label_of (component_key comp)) ->
  foldlM (remove_false_water_pol cfg files cc
            (dark_land_component_data bp (rf_rows cfg) (rf_cols cfg)
                                      (rf_minimum_pixel cfg) (cc_stats cc))) st pols
  = Ok st' ->
  Forall2 (fun im v => pixel im r c = Some (Z.b2z v)) (bimodality_set st) verdicts0 ->
  (forall chk, check_image st = Some chk -> pixel chk r c = Some 0) ->
  exists verdicts,
    mapM (fun p : nat * string =>
            dl_verdict <$> process_dark_land_component (component_args cfg p.1 comp) files)
         (List.filter (fun p : nat * string => is_copol_or_crosspol p.2) pols)
    = Ok verdicts
    /\ Forall2 (fun im v => pixel im r c = Some (Z.b2z v))
               (bimodality_set st') (verdicts0 ++ verdicts)
    /\ (forall chk, check_image st' = Some chk -> pixel chk r c = Some 0).
Proof.
  intros Hcomp Hlabel. revert st verdicts0.
  induction pols as [|[pol_ind pol] pols IH]; intros st verdicts0 Hfold Hset Hchk.
  - cbn in Hfold. injection Hfold as <-. exists []. rewrite app_nil_r. now repeat split.
  - cbn [foldlM] in Hfold. apply bind_Ok in Hfold as (st1 & Hstep & Hrest).
    unfold remove_false_water_pol in Hstep. cbn [List.filter snd].
    destruct (is_copol_or_crosspol pol) eqn:Hpol.
    + apply bind_Ok in Hstep as (results & Hpool & Hstep).
      apply bind_Ok in Hstep as ([bim chk] & Hscatter & [= <-]).
      destruct (dark_land_pool_result _ _ _ _ _ _ Hpool Hcomp) as (res & Hrun & Hres).
      assert (Hnodup : NoDup (dl_index <$> results)).
      { rewrite (dark_land_pool_indices _ _ _ _ _ Hpool).
        apply dark_land_component_data_NoDup. }
      pose proof (process_dark_land_component_index _ _ _ Hrun) as Hidx.
      destruct res as [[[i b] p] m]. unfold dl_index in Hidx. cbn in Hidx.
      assert (Hi : i = component_key comp) by (now destruct comp as [[? ?] ?]).
      subst i. rewrite Hi in Hres.
      destruct (dark_land_scatter_assigned _ _ _ _ _ _ _ _ _ _ _ _ Hnodup Hscatter
                  Hres Hlabel) as [Hbim Hcheck].
      destruct (IH _ (verdicts0 ++ [b]) Hrest) as (verdicts & Hmap & Hall & Hc).
      * cbn. apply Forall2_app; [assumption|]. now repeat constructor.
      * cbn. now intros chk' [= <-].
      * exists (b :: verdicts). split; [|split; [|exact Hc]].
        -- simpl. simpl in Hmap. rewrite Hrun. cbn [fmap result_fmap mbind result_bind].
           rewrite Hmap. reflexivity.
        -- now rewrite <- app_assoc in Hall.
    + injection Hstep as <-. exact (IH _ _ Hrest Hset Hchk).
Qed.

Lemma remove_false_water_block_outcome cfg block_iter st bp st' :
  remove_false_water_block cfg block_iter st bp = Ok st' ->
  block_outcome cfg block_iter st bp st'.
Proof.
  destruct st as [s water_mask_path]. unfold remove_false_water_block, block_outcome.
  cbn [fst snd].
  set (cc := connectedComponentsWithStats
               (astype_uint8 (get_raster_block s water_mask_path bp))).
  set (s_label := write_raster_block s FalseWaterLabel (cc_labels cc) bp).
  intros (ps & Hps & Hblock)%bind_Ok.
  apply bind_Ok in Hblock as (bimodality_total & Htotal & Hblock).
  apply bind_Ok in Hblock as (chk & Hchk & [= <-]). cbn [fst snd].
  exists bimodality_total, chk. split; [reflexivity|]. split; [reflexivity|].
  destruct (check_image ps) as [chk'|] eqn:Hbound; [|discriminate].
  injection Hchk as ->.
  destruct (existsb is_copol_or_crosspol (rf_pol_list cfg)) eqn:Hany.
  2:{ rewrite (remove_false_water_pols_skipped _ _ _ _ _ _ (enumerate_skipped _ Hany))
        in Hps.
      injection Hps as <-. discriminate. }
  destruct (squeezed (cc_labels cc) (rf_cols cfg)); [discriminate|].
  injection Htotal as <-.
  intros ind st_row r c Hst Hlabel.
  assert (Hne : label_of ind <> 0) by (unfold label_of; lia).
  destruct (dark_land_component bp (rf_rows cfg) (rf_cols cfg) (rf_minimum_pixel cfg)
              ind st_row) as [comp|] eqn:Hcomp.
  - assert (Hin : comp ∈ dark_land_component_data bp (rf_rows cfg) (rf_cols cfg)
                           (rf_minimum_pixel cfg) (cc_stats cc))
      by (eapply component_data_elem; eassumption).
    pose proof (dark_land_component_key _ _ _ _ _ _ _ Hcomp) as Hkey.
    rewrite <- Hkey in Hlabel.
    destruct (remove_false_water_pols_dispatched cfg _ cc bp comp r c _ _ _ []
                Hin Hlabel Hps) as (verdicts & Hmap & Hall & Hc).
    + constructor.
    + discriminate.
    + split; [now apply Hc|]. exists verdicts. split; [exact Hmap|].
      eapply mask_background_label; [eassumption|now rewrite Hkey|].
      apply sum_images_pixel; [|exact Hall].
      intros Hnil. rewrite Hnil in Hall. apply Forall2_nil_inv_l in Hall.
      cbn in Hall. subst verdicts. apply mapM_Ok, Forall2_nil_inv_r in Hmap.
      pose proof (filter_enumerate_nil _ Hmap) as Hskip.
      rewrite (remove_false_water_pols_skipped _ _ _ _ _ _ Hskip) in Hps.
      injection Hps as Hps. rewrite <- Hps in Hbound. discriminate.
  - assert (Hdef : deferred_in ps r c).
    { eapply remove_false_water_pols_not_dispatched; try exact Hps; try exact Hlabel.
      - eapply lookup_lt_Some, Hst.
      - eapply dark_land_component_skipped; eassumption.
      - split; [constructor|discriminate]. }
    destruct Hdef as [Hset Hcheck]. destruct (Hcheck chk Hbound) as [Hone Hnonempty].
    split; [assumption|].
    eapply mask_background_zero; [eassumption|]. now apply sum_images_zero.
Qed.

Lemma remove_false_water_blocks_run cfg block_iter block_params st st_end :
  foldlM (remove_false_water_block cfg block_iter) st block_params = Ok st_end ->
  blocks_run cfg block_iter st block_params st_end.
Proof.
  revert st. induction block_params as [|bp block_params IH]; intros st Hfold.
  - cbn in Hfold. now injection Hfold as <-.
  - cbn [foldlM] in Hfold. apply bind_Ok in Hfold as (st' & Hblock & Hrest).
    cbn [blocks_run]. exists st'. split; [exact Hblock|]. split; [|now apply IH].
    now apply remove_false_water_block_outcome.
Qed.

End PassProperties.

Section TwoPasses.
Context {N : Numerics} {S : BlockRasterStore}.


End TwoPasses.


